(** * NewsHub (src/app/index.tsx): the fetch / cache / pagination pipeline

    A shallow embedding of the parts of the screen that decide what is
    requested from the articles API and what the list shows:

    - [fetchNews], the one function that talks to the network;
    - the three pieces of component state of [NewsApp] and their setters;
    - the options handed to [useInfiniteQuery] ([queryKey], [queryFn],
      [initialPageParam], [getNextPageParam]) together with a model of what
      the query client (created with default options in the root layout)
      does with them;
    - the derived list [allNews] and the row key of the [FlatList].

    Strings are byte strings, JS numbers that count pages are integers
    (exact in a double below 2^53, which a counter that starts at 1 and grows
    by one per fetched page does not leave), objects used as dictionaries are
    finite maps. *)

From stdpp Require Import gmap strings list fin_maps.

Local Open Scope Z_scope.
Local Open Scope string_scope.

(** ** Constants *)

Definition API_KEY : string := "cd00e60d5e354c99a1d67fb99609d403".
Definition BASE_URL : string := "https://newsapi.org/v2".
Definition CATEGORIES : list string :=
  ["all"; "politics"; "tech"; "sports"; "business"].

(** ** Data *)

Record Article := mkArticle {
  url : string;
  title : string;
  description : string;
  urlToImage : string;
  publishedAt : string;
  source_name : string;
  author : string;
}.

Global Instance Article_eq_dec : EqDecision Article.
Proof. solve_decision. Defined.

(** [articles] is whatever [response.data.articles] evaluated to: an array
    of articles, or [None] for [undefined] when the body has no such
    property. *)
Record NewsResponse := mkNewsResponse {
  articles : option (list Article);
  nextPage : Z;
}.

Global Instance NewsResponse_eq_dec : EqDecision NewsResponse.
Proof. solve_decision. Defined.

(** Values of the request's [params: Record<string, string | number>]. *)
Inductive JsVal :=
| JStr (s : string)
| JNum (n : Z).

Global Instance JsVal_eq_dec : EqDecision JsVal.
Proof. solve_decision. Defined.

(** The own properties of the object literal [CATEGORY_SOURCES].  Property
    names inherited from [Object.prototype] are not modelled; none of them is
    a value the category picker offers. *)
Definition CATEGORY_SOURCES : gmap string string :=
  list_to_map [
    ("politics", "bbc-news,the-guardian-uk");
    ("tech", "techcrunch,wired");
    ("sports", "espn,bbc-sport");
    ("business", "bloomberg,financial-times")
  ].

(** JS truthiness of a string: every string but the empty one. *)
Definition truthy_string (s : string) : bool :=
  if decide (s = "") then false else true.

(** [a || b] on strings. *)
Definition or_else (a b : string) : string :=
  if truthy_string a then a else b.

(** ** The network as seen through axios *)

Inductive AxiosError :=
| NetworkFailure (message : string)
| BadStatus (status : Z) (message : string).

(** The parsed body of a fulfilled response, as far as [fetchNews] looks:
    [null]/[undefined] (a property read throws), a value without an
    [articles] property, or one with an array of articles. *)
Inductive ResponseData :=
| DataNullish
| DataNoArticles
| DataArticles (l : list Article).

Record AxiosResponse := mkAxiosResponse {
  status : Z;
  data : ResponseData;
}.

Inductive AxiosOutcome :=
| Rejected (e : AxiosError)
| Fulfilled (r : AxiosResponse).

(** What a rejected promise of the fetch layer carries. *)
Inductive Failure :=
| AxiosFailure (e : AxiosError)
| TypeError (message : string).

Record Request := mkRequest {
  req_url : string;
  req_params : gmap string JsVal;
}.

(** ** Asynchronous code

    An [async] function is a tree: it returns, throws, or waits for
    [axios.get] and goes on with the response.  A rejected request is thrown
    at the [await]; no function here catches it. *)
Inductive Async (A : Type) : Type :=
| Return (a : A)
| Throw (e : Failure)
| AxiosGet (r : Request) (k : AxiosResponse → Async A).
Arguments Return {A} a.
Arguments Throw {A} e.
Arguments AxiosGet {A} r k.

Fixpoint Async_bind {A B} (f : A → Async B) (m : Async A) : Async B :=
  match m with
  | Return a => f a
  | Throw e => Throw e
  | AxiosGet r k => AxiosGet r (λ x, Async_bind f (k x))
  end.

Global Instance Async_ret : MRet Async := λ A a, Return a.
Global Instance Async_mbind : MBind Async := λ A B f m, Async_bind f m.

Definition axios_get (u : string) (params : gmap string JsVal)
  : Async AxiosResponse :=
  AxiosGet (mkRequest u params) Return.

(** [d.articles] *)
Definition get_articles (d : ResponseData) : Async (option (list Article)) :=
  match d with
  | DataNullish => Throw (TypeError "Cannot read property 'articles'")
  | DataNoArticles => Return None
  | DataArticles l => Return (Some l)
  end.

(** Resume a suspended [await axios.get(..)] with the request's outcome. *)
Definition settle {A} (k : AxiosResponse → Async A) (o : AxiosOutcome)
  : Async A :=
  match o with
  | Rejected e => Throw (AxiosFailure e)
  | Fulfilled r => k r
  end.

(** Run against a network that answers the [n]-th request [r] of the run
    with [net n r]; yields the requests made, in order, and the result. *)
Fixpoint run {A} (net : nat → Request → AxiosOutcome) (n : nat)
    (m : Async A) : list Request * (Failure + A) :=
  match m with
  | Return a => ([], inr a)
  | Throw e => ([], inl e)
  | AxiosGet r k =>
      match net n r with
      | Rejected e => ([r], inl (AxiosFailure e))
      | Fulfilled x =>
          let '(rs, res) := run net (S n) (k x) in (r :: rs, res)
      end
  end.

(** ** fetchNews *)

Record FetchArgs := mkFetchArgs {
  arg_category : option string;
  arg_searchTerm : option string;
  arg_page : option Z;
}.

Definition fetchNews_params (category searchTerm : string) (page : Z)
  : gmap string JsVal :=
  let params : gmap string JsVal :=
    <["pageSize" := JNum 10]>
    (<["page" := JNum page]>
    (<["q" := JStr (or_else searchTerm "news")]>
    (<["apiKey" := JStr API_KEY]> ∅))) in
  if decide (category ≠ "all") then
    match CATEGORY_SOURCES !! category with
    | Some sources =>
        if truthy_string sources
        then <["sources" := JStr sources]> params
        else params
    | None => params
    end
  else params.

Definition fetchNews (a : FetchArgs) : Async NewsResponse :=
  let category := default "all" (arg_category a) in
  let searchTerm := default "" (arg_searchTerm a) in
  let page := default 1 (arg_page a) in
  let params := fetchNews_params category searchTerm page in
  response ← axios_get (BASE_URL +:+ "/everything") params;
  arts ← get_articles (data response);
  mret {| articles := arts; nextPage := page + 1 |}.

(** ** The component state of NewsApp and the options of useInfiniteQuery *)

Record Ui := mkUi {
  searchInput : string;
  searchTerm : string;
  activeCategory : string;
}.

Definition setSearchInput (s : string) (u : Ui) : Ui :=
  {| searchInput := s; searchTerm := searchTerm u;
     activeCategory := activeCategory u |}.

Definition setSearchTerm (s : string) (u : Ui) : Ui :=
  {| searchInput := searchInput u; searchTerm := s;
     activeCategory := activeCategory u |}.

Definition setActiveCategory (c : string) (u : Ui) : Ui :=
  {| searchInput := searchInput u; searchTerm := searchTerm u;
     activeCategory := c |}.

Definition handleSearch (u : Ui) : Ui := setSearchTerm (searchInput u) u.

(** [queryKey: ['news', activeCategory, searchTerm]].  The query client
    files a query under the JSON text of its key, which for arrays of
    strings is the same for two keys exactly when the arrays are equal. *)
Definition queryKey (u : Ui) : list string :=
  ["news"; activeCategory u; searchTerm u].

(** [queryFn], closed over the [activeCategory] and [searchTerm] of the
    render that passed it: [({ pageParam = 1 }) => fetchNews({...})]. *)
Definition queryFn (u : Ui) (pageParam : option Z) : Async NewsResponse :=
  fetchNews {| arg_category := Some (activeCategory u);
               arg_searchTerm := Some (searchTerm u);
               arg_page := Some (default 1 pageParam) |}.

Definition initialPageParam : Z := 1.

(** [(lastPage) => lastPage.nextPage ?? undefined]: [nextPage] is a number,
    so the right operand of [??] is never taken. *)
Definition getNextPageParam (lastPage : NewsResponse) : option Z :=
  Some (nextPage lastPage).

(** ** The query client

    A model of what [useInfiniteQuery] and the default [QueryClient] do
    with these options, as far as the screen depends on it: one cache entry
    per key; a fetch of the first page when the observed key has no entry; a
    refetch of all its pages when it has an idle one (nothing is ever
    fresh with the default stale time); [fetchNextPage], which drops a fetch
    in flight for the key and asks for one more page; three retries of a
    failed fetch while the key is observed; removal of unobserved idle
    entries.  Timers (retry delay, garbage collection) appear as events. *)

Record InfiniteData := mkInfiniteData {
  pages : list NewsResponse;
  pageParams : list Z;
}.

Definition no_data : InfiniteData := {| pages := []; pageParams := [] |}.

Definition addToEnd (d : InfiniteData) (page : NewsResponse) (param : Z)
  : InfiniteData :=
  {| pages := (pages d ++ [page])%list;
     pageParams := (pageParams d ++ [param])%list |}.

(** The parameter of the page after the last one of [d]. *)
Definition nextPageParam (d : InfiniteData) : option Z :=
  match last (pages d) with
  | Some lastPage => getNextPageParam lastPage
  | None => None
  end.

Inductive QueryStatus := StatusPending | StatusError | StatusSuccess.

(** A fetch in flight for one query: the closure it calls, whether it is a
    [fetchNextPage] (forward) or a fetch of all pages, the data the query had
    when it began, the pages gathered so far, the call of [queryFn] being
    awaited with its page parameter and the position of its request in the
    log, and the number of failed attempts. *)
Record Job := mkJob {
  job_closure : Ui;
  job_forward : bool;
  job_old : InfiniteData;
  job_acc : InfiniteData;
  job_param : Z;
  job_serial : nat;
  job_call : Async NewsResponse;
  job_failureCount : nat;
}.

Record Query := mkQuery {
  q_data : option InfiniteData;
  q_status : QueryStatus;
  q_error : option Failure;
  q_job : option Job;
}.

Record World := mkWorld {
  ui : Ui;
  cache : gmap (list string) Query;
  requests : list Request;
}.

Definition first_request {A} (m : Async A) : list Request :=
  match m with
  | AxiosGet r _ => [r]
  | _ => []
  end.

(** Call [queryFn] for page [param]; its request, if it makes one, goes to
    the end of the log. *)
Definition call_page (u : Ui) (forward : bool) (old acc : InfiniteData)
    (param : Z) (failures : nat) (log : list Request) : Job * list Request :=
  let m := queryFn u (Some param) in
  ({| job_closure := u; job_forward := forward; job_old := old;
      job_acc := acc; job_param := param; job_serial := length log;
      job_call := m; job_failureCount := failures |},
   (log ++ first_request m)%list).

(** The first step of the fetch function: one more page after [old], or all
    pages again from the first parameter. *)
Definition start_fetch (u : Ui) (forward : bool) (old : InfiniteData)
    (failures : nat) (log : list Request) : option (Job * list Request) :=
  if forward then
    match nextPageParam old with
    | Some param => Some (call_page u true old old param failures log)
    | None => None
    end
  else
    let param := default initialPageParam (head (pageParams old)) in
    Some (call_page u false old no_data param failures log).

(** Reducer action [fetch]. *)
Definition fetching (q : Query) (j : Job) : Query :=
  match q_data q with
  | None => {| q_data := None; q_status := StatusPending; q_error := None;
               q_job := Some j |}
  | Some d => {| q_data := Some d; q_status := q_status q;
                 q_error := q_error q; q_job := Some j |}
  end.

(** Reducer action [success]. *)
Definition succeeded (d : InfiniteData) : Query :=
  {| q_data := Some d; q_status := StatusSuccess; q_error := None;
     q_job := None |}.

(** Reducer action [error]. *)
Definition failed (q : Query) (e : Failure) : Query :=
  {| q_data := q_data q; q_status := StatusError; q_error := Some e;
     q_job := None |}.

Definition new_query : Query :=
  {| q_data := None; q_status := StatusPending; q_error := None;
     q_job := None |}.

Definition with_job (q : Query) (j : Job) : Query :=
  {| q_data := q_data q; q_status := q_status q; q_error := q_error q;
     q_job := Some j |}.

(** Begin a fetch of all pages of [q], filed under the key of [u]. *)
Definition fetch_all (u : Ui) (q : Query) (failures : nat)
    (c : gmap (list string) Query) (log : list Request)
  : gmap (list string) Query * list Request :=
  match start_fetch u false (default no_data (q_data q)) failures log with
  | Some (j, log') => (<[queryKey u := fetching q j]> c, log')
  | None => (c, log)
  end.

(** The observer turns to the key of [u]: a new entry is created and
    fetched, an idle one is fetched again, one that is being fetched is left
    to finish. *)
Definition observe (u : Ui) (c : gmap (list string) Query)
    (log : list Request) : gmap (list string) Query * list Request :=
  match c !! queryKey u with
  | None => fetch_all u new_query 0 c log
  | Some q =>
      match q_job q with
      | Some _ => (c, log)
      | None => fetch_all u q 0 c log
      end
  end.

(** A state update followed by the render it causes. *)
Definition render (u' : Ui) (w : World) : World :=
  if decide (queryKey u' = queryKey (ui w)) then
    {| ui := u'; cache := cache w; requests := requests w |}
  else
    let '(c, log) := observe u' (cache w) (requests w) in
    {| ui := u'; cache := c; requests := log |}.

(** What the hook returns for the observed key. *)
Definition observed (w : World) : Query :=
  default new_query (cache w !! queryKey (ui w)).

Definition hook_data (w : World) : option InfiniteData := q_data (observed w).
Definition hook_status (w : World) : QueryStatus := q_status (observed w).

Definition hasNextPage (w : World) : bool :=
  match hook_data w with
  | Some d => bool_decide (is_Some (nextPageParam d))
  | None => false
  end.

Definition isFetchingNextPage (w : World) : bool :=
  match q_job (observed w) with
  | Some j => job_forward j
  | None => false
  end.

(** [fetchNextPage()]: a fetch in flight for the key is cancelled (its
    result is ignored), then one more page is asked for. *)
Definition fetchNextPage (w : World) : World :=
  let q := observed w in
  match q_data q with
  | Some d =>
      match start_fetch (ui w) true d 0 (requests w) with
      | Some (j, log) =>
          {| ui := ui w;
             cache := <[queryKey (ui w) := fetching q j]> (cache w);
             requests := log |}
      | None => w
      end
  | None =>
      match q_job q with
      | Some _ => w
      | None =>
          let '(c, log) := observe (ui w) (cache w) (requests w) in
          {| ui := ui w; cache := c; requests := log |}
      end
  end.

(** [onEndReached={() => hasNextPage && fetchNextPage()}]; the list is on
    screen only when the status is neither pending nor error. *)
Definition onEndReached (w : World) : World :=
  match hook_status w with
  | StatusSuccess => if hasNextPage w then fetchNextPage w else w
  | _ => w
  end.

Definition set_query (key : list string) (q : Query) (log : list Request)
    (w : World) : World :=
  {| ui := ui w; cache := <[key := q]> (cache w); requests := log |}.

(** A page arrived for job [j] of query [q] under [key]: a forward fetch is
    complete; a fetch of all pages goes on while it has fewer pages than the
    query had and there is a next parameter. *)
Definition page_done (key : list string) (q : Query) (j : Job)
    (page : NewsResponse) (w : World) : World :=
  let acc := addToEnd (job_acc j) page (job_param j) in
  let complete := set_query key (succeeded acc) (requests w) w in
  if job_forward j then complete
  else if bool_decide (length (pages acc) < length (pages (job_old j)))%nat
  then
    match nextPageParam acc with
    | Some param =>
        let '(j', log) :=
          call_page (job_closure j) false (job_old j) acc param
            (job_failureCount j) (requests w) in
        set_query key (with_job q j') log w
    | None => complete
    end
  else complete.

(** The call of job [j] threw [e]: the fetch function is run again from
    its start, up to three times and only while the key is observed;
    otherwise the query is in error and keeps its data. *)
Definition page_failed (key : list string) (q : Query) (j : Job)
    (e : Failure) (w : World) : World :=
  if bool_decide (key = queryKey (ui w) ∧ (job_failureCount j < 3)%nat) then
    match start_fetch (job_closure j) (job_forward j) (job_old j)
            (S (job_failureCount j)) (requests w) with
    | Some (j', log) => set_query key (with_job q j') log w
    | None => set_query key (failed q e) (requests w) w
    end
  else set_query key (failed q e) (requests w) w.

Section Network.

(** [net n r] is the network's answer to the request [r] that stands at
    position [n] of the log. *)
Variable net : nat → Request → AxiosOutcome.

(** The call awaited by [j] takes its next step. *)
Definition resume (j : Job) : Async NewsResponse :=
  match job_call j with
  | AxiosGet r k => settle k (net (job_serial j) r)
  | m => m
  end.

(** The promise of the fetch in flight for [key] makes progress. *)
Definition settled (key : list string) (w : World) : World :=
  match cache w !! key with
  | Some q =>
      match q_job q with
      | Some j =>
          match resume j with
          | Return page => page_done key q j page w
          | Throw e => page_failed key q j e w
          | AxiosGet r k =>
              set_query key
                (with_job q
                   {| job_closure := job_closure j;
                      job_forward := job_forward j;
                      job_old := job_old j; job_acc := job_acc j;
                      job_param := job_param j;
                      job_serial := length (requests w);
                      job_call := AxiosGet r k;
                      job_failureCount := job_failureCount j |})
                (requests w ++ [r])%list w
          end
      | None => w
      end
  | None => w
  end.

(** An entry nobody observes and nothing fetches is dropped when its timer
    fires. *)
Definition gc (key : list string) (w : World) : World :=
  match cache w !! key with
  | Some q =>
      if bool_decide (key ≠ queryKey (ui w) ∧ q_job q = None) then
        {| ui := ui w; cache := delete key (cache w);
           requests := requests w |}
      else w
  | None => w
  end.

Inductive Event :=
| OnChangeText (text : string)
| OnSubmit
| OnValueChange (itemValue : string)
| OnEndReached
| Settled (key : list string)
| GcTimeout (key : list string).

Definition step (w : World) (e : Event) : World :=
  match e with
  | OnChangeText text => render (setSearchInput text (ui w)) w
  | OnSubmit => render (handleSearch (ui w)) w
  | OnValueChange itemValue => render (setActiveCategory itemValue (ui w)) w
  | OnEndReached => onEndReached w
  | Settled key => settled key w
  | GcTimeout key => gc key w
  end.

(** The first render: the three [useState] initial values, an empty cache,
    and the observer turning to the first key. *)
Definition initial_ui : Ui :=
  {| searchInput := ""; searchTerm := ""; activeCategory := "all" |}.

Definition mount : World :=
  let '(c, log) := observe initial_ui ∅ [] in
  {| ui := initial_ui; cache := c; requests := log |}.

Definition run_events (es : list Event) : World := foldl step mount es.

End Network.

(** ** What the list shows *)

(** The value the [flatMap] callback [(page) => page.articles] returns is
    spliced into the result when it is an array and put there as one element
    ([undefined], here [None]) when it is not. *)
Definition page_items (page : NewsResponse) : list (option Article) :=
  match articles page with
  | Some l => Some <$> l
  | None => [None]
  end.

(** [data?.pages.flatMap((page) => page.articles) || []]: an array is never
    falsy, so [[]] stands in only for missing data. *)
Definition allNews (d : option InfiniteData) : list (option Article) :=
  match d with
  | Some d => flat_map page_items (pages d)
  | None => []
  end.

(** [keyExtractor] of the list. *)
Definition keyExtractor (item : Article) : string :=
  url item +:+ "-" +:+ publishedAt item.

(** ** Names for what fetchNews sends and returns *)

(** The one request of a call. *)
Definition the_request (category searchTerm : string) (page : Z) : Request :=
  mkRequest (BASE_URL +:+ "/everything")
    (fetchNews_params category searchTerm page).

(** What [fetchNews] makes of a response once it has one. *)
Definition page_of_response (page : Z) (r : AxiosResponse)
  : Async NewsResponse :=
  match data r with
  | DataNullish => Throw (TypeError "Cannot read property 'articles'")
  | DataNoArticles => Return {| articles := None; nextPage := page + 1 |}
  | DataArticles l => Return {| articles := Some l; nextPage := page + 1 |}
  end.

(** ** The specification's words, for comparison with the code *)

Module Spec.

(** "normalized (trimmed) searchTerm": white space removed at both ends. *)
Fixpoint trim_start (s : string) : string :=
  match s with
  | String a s' => if Ascii.is_space a then trim_start s' else s
  | EmptyString => EmptyString
  end.

Definition trim (s : string) : string :=
  String.rev (trim_start (String.rev (trim_start s))).

(** "Two QuerySpecs are identity-equal iff category and normalized (trimmed)
    searchTerm match exactly." *)
Definition identity_equal (q1 q2 : Ui) : Prop :=
  activeCategory q1 = activeCategory q2 ∧
  trim (searchTerm q1) = trim (searchTerm q2).

(** The claim that the cache key is this identity. *)
Definition identity_is_query_key : Prop :=
  ∀ q1 q2 : Ui, queryKey q1 = queryKey q2 ↔ identity_equal q1 q2.

(** "Identity key for de-duplication in the flattened feed = (url,
    publishedAt) pair". *)
Definition identity_key (item : option Article) : option (string * string) :=
  (λ a, (url a, publishedAt a)) <$> item.

(** "Deduplication preserves first occurrence order": an item stays when no
    earlier item has its key. *)
Fixpoint dedup_from (seen : list (option (string * string)))
    (items : list (option Article)) : list (option Article) :=
  match items with
  | [] => []
  | x :: rest =>
      if decide (identity_key x ∈ seen) then dedup_from seen rest
      else x :: dedup_from (identity_key x :: seen) rest
  end.

Definition dedup (items : list (option Article)) : list (option Article) :=
  dedup_from [] items.

(** The claim that the list shown is deduplicated, whatever was fetched. *)
Definition items_are_deduplicated : Prop :=
  ∀ (net : nat → Request → AxiosOutcome) (es : list Event),
    allNews (hook_data (run_events net es)) =
    dedup (allNews (hook_data (run_events net es))).

(** "signals NetworkError on transport failure, UpstreamError(status,
    message) on a non-success response, MalformedResponseError if the
    response shape is unparsable". *)
Inductive FetchError :=
| NetworkError
| UpstreamError (status : Z) (message : string)
| MalformedResponseError.

(** The failure the specification expects for an outcome of the request,
    [None] when it expects a page. *)
Definition expected_failure (o : AxiosOutcome) : option FetchError :=
  match o with
  | Rejected (NetworkFailure _) => Some NetworkError
  | Rejected (BadStatus s m) => Some (UpstreamError s m)
  | Fulfilled r =>
      match data r with
      | DataArticles _ => None
      | _ => Some MalformedResponseError
      end
  end.

(** How a failure of the code reads in the specification's taxonomy. *)
Definition classify (f : Failure) : FetchError :=
  match f with
  | AxiosFailure (NetworkFailure _) => NetworkError
  | AxiosFailure (BadStatus s m) => UpstreamError s m
  | TypeError _ => MalformedResponseError
  end.

(** The fetch layer as the specification describes it: one request, and a
    failure of the expected class exactly when one is expected. *)
Definition fetch_layer_classifies : Prop :=
  ∀ (net : nat → Request → AxiosOutcome) (a : FetchArgs),
    ∃ r, (run net 0 (fetchNews a)).1 = [r] ∧
      match expected_failure (net 0%nat r) with
      | Some err =>
          ∃ f, (run net 0 (fetchNews a)).2 = inl f ∧ classify f = err
      | None => ∃ page, (run net 0 (fetchNews a)).2 = inr page
      end.

(** "A page with fewer than pageSize articles transitions state to
    Exhausted and all subsequent loadMore() calls are no-ops". *)
Definition pageSize : nat := 10.

Definition isLast (page : NewsResponse) : Prop :=
  ∃ l, articles page = Some l ∧ (length l < pageSize)%nat.

Definition short_page_exhausts : Prop :=
  ∀ (net : nat → Request → AxiosOutcome) (es : list Event) d page,
    hook_data (run_events net es) = Some d →
    last (pages d) = Some page →
    isLast page →
    step net (run_events net es) OnEndReached = run_events net es.

End Spec.


(** ** What holds of every cache the screen can reach *)

Section Invariant.

Variable net : nat → Request → AxiosOutcome.

(** The call of [queryFn] for page [p] under the state [u], once its
    request, the [n]-th of the log, has been answered. *)
Definition answer (n : nat) (u : Ui) (p : Z) : Async NewsResponse :=
  match queryFn u (Some p) with
  | AxiosGet r k => settle k (net n r)
  | m => m
  end.

(** The pages of [d] are pages 1, 2, ... of the query of [u], in this
    order: the [i]-th one (from 0) is what some call for page [i + 1] with
    the category and search term of [u] returned. *)
Definition pages_of (u : Ui) (d : InfiniteData) : Prop :=
  pageParams d = seqZ 1 (Z.of_nat (length (pages d))) ∧
  ∀ (i : nat) page,
    pages d !! i = Some page →
    ∃ n, answer n u (Z.of_nat i + 1) = Return page.

Definition job_ok (u : Ui) (q : Query) (j : Job) : Prop :=
  queryKey (job_closure j) = queryKey u ∧
  job_call j = queryFn (job_closure j) (Some (job_param j)) ∧
  job_old j = default no_data (q_data q) ∧
  pages_of u (job_acc j) ∧
  job_param j = Z.of_nat (length (pages (job_acc j))) + 1 ∧
  (job_forward j = true → job_acc j = job_old j).

Definition query_ok (u : Ui) (q : Query) : Prop :=
  (∀ d, q_data q = Some d → pages_of u d ∧ pages d ≠ []) ∧
  (q_status q = StatusSuccess → is_Some (q_data q)) ∧
  (∀ j, q_job q = Some j → job_ok u q j).

Definition cache_ok (w : World) : Prop :=
  ∀ key q, cache w !! key = Some q → ∃ u, key = queryKey u ∧ query_ok u q.

End Invariant.

(** ** Scenarios *)

Definition sample_article (name : string) : Article :=
  {| url := "https://example.org/" +:+ name; title := name;
     description := ""; urlToImage := "";
     publishedAt := "2024-01-01T00:00:00Z"; source_name := "Example";
     author := "" |}.

(** A network with three articles for every request. *)
Definition short_net : nat → Request → AxiosOutcome :=
  λ _ _, Fulfilled
    {| status := 200;
       data := DataArticles
         [sample_article "a"; sample_article "b"; sample_article "c"] |}.

(** The page [fetchNews] makes of its answers. *)
Definition short_page (next : Z) : NewsResponse :=
  {| articles :=
       Some [sample_article "a"; sample_article "b"; sample_article "c"];
     nextPage := next |}.

(** The first page has arrived. *)
Definition first_page_loaded : list Event := [Settled (queryKey initial_ui)].

(** Two pages have arrived. *)
Definition two_pages_loaded : list Event :=
  [Settled (queryKey initial_ui); OnEndReached; Settled (queryKey initial_ui)].

(** A network that answers with one article named after the request's
    [q]. *)
Definition echo_net : nat → Request → AxiosOutcome :=
  λ _ r, Fulfilled
    {| status := 200;
       data := DataArticles
         [sample_article
            match req_params r !! "q" with
            | Some (JStr q) => q
            | _ => ""
            end] |}.

Definition key_A : list string := ["news"; "all"; "A"].
Definition key_B : list string := ["news"; "all"; "B"].

(** Search for "A", then for "B" before anything has arrived; the page for
    "B" arrives first, the page for "A" after it. *)
Definition race : list Event :=
  [OnChangeText "A"; OnSubmit; OnChangeText "B"; OnSubmit;
   Settled key_B; Settled key_A].

(** ** The rest of the screen *)

(** What a [NewsItem] row shows of an article: the image source, the title,
    the description and the source name, each with its fallback.  The date
    label depends on the locale and time zone of the device and is left
    out. *)
Record NewsItemView := mkNewsItemView {
  image_uri : string;
  title_text : string;
  description_text : string;
  source_text : string;
}.

Definition NewsItem (item : Article) : NewsItemView :=
  {| image_uri := or_else (urlToImage item) "https://placehold.co/600x400";
     title_text := title item;
     description_text :=
       or_else (description item) "No description available";
     source_text := or_else (source_name item) "Unknown" |}.

(** [toUpperCase] on one ASCII character. *)
Definition toUpperCase (a : Stdlib.Strings.Ascii.ascii)
  : Stdlib.Strings.Ascii.ascii :=
  let n := Stdlib.Strings.Ascii.nat_of_ascii a in
  if ((97 <=? n) && (n <=? 122))%nat
  then Stdlib.Strings.Ascii.ascii_of_nat (n - 32)
  else a.

(** [category.charAt(0).toUpperCase() + category.slice(1)], for ASCII
    text. *)
Definition capitalize (category : string) : string :=
  match category with
  | EmptyString => EmptyString
  | String a rest => String (toUpperCase a) rest
  end.

(** The [Picker.Item]s: one per element of [CATEGORIES]. *)
Record PickerItem := mkPickerItem {
  item_key : string;
  item_label : string;
  item_value : string;
}.

Definition picker_items : list PickerItem :=
  (λ category,
     {| item_key := category; item_label := capitalize category;
        item_value := category |}) <$> CATEGORIES.

(** [onValueChange] is called with the value of one of the items. *)
Definition valid_event (e : Event) : Prop :=
  match e with
  | OnValueChange itemValue => itemValue ∈ item_value <$> picker_items
  | _ => True
  end.

(** [error.message] *)
Definition error_message (e : Failure) : string :=
  match e with
  | AxiosFailure (NetworkFailure message) => message
  | AxiosFailure (BadStatus _ message) => message
  | TypeError message => message
  end.

(** The part of the screen below the picker: the large activity indicator,
    the error text, or the list with its items and whether its footer shows
    the small activity indicator. *)
Inductive Screen :=
| Loader
| ErrorText (text : string)
| NewsList (items : list (option Article)) (footer : bool).

(** [status === 'pending' ? ... : status === 'error' ? ... : ...]; [None]
    when [error] is [null] at the read of [error.message]. *)
Definition screen (w : World) : option Screen :=
  match hook_status w with
  | StatusPending => Some Loader
  | StatusError =>
      match q_error (observed w) with
      | Some e => Some (ErrorText ("Error: " +:+ error_message e))
      | None => None
      end
  | StatusSuccess =>
      Some (NewsList (allNews (hook_data w)) (isFetchingNextPage w))
  end.

(** A request for some page, from 1 on, of a category of the picker. *)
Definition picker_request (r : Request) : Prop :=
  ∃ category searchTerm page,
    r = the_request category searchTerm page ∧
    category ∈ CATEGORIES ∧ (1 ≤ page)%Z.


(** The key of a query for a category of the picker. *)
Definition picker_key (key : list string) : Prop :=
  ∃ u, key = queryKey u ∧ activeCategory u ∈ CATEGORIES.

(** Every entry of the cache has property [P]. *)
Definition entries_ok (P : list string → Query → Prop) (w : World) : Prop :=
  ∀ key q, cache w !! key = Some q → P key q.

(** A network whose first answer holds three articles and that rejects
    every later request. *)
Definition failing_net : nat → Request → AxiosOutcome :=
  λ n r, match n with
         | O => short_net n r
         | S _ => Rejected (NetworkFailure "Network Error")
         end.

(** The first page arrives; the end of the list is reached; the request for
    page 2 and two of its retries are rejected, the third retry is in
    flight. *)
Definition last_retry_in_flight : list Event :=
  [Settled (queryKey initial_ui); OnEndReached;
   Settled (queryKey initial_ui); Settled (queryKey initial_ui);
   Settled (queryKey initial_ui)].

(** The first page has arrived and page 2 has been asked for. *)
Definition loading_more : list Event :=
  [Settled (queryKey initial_ui); OnEndReached].

(** Property names every object inherits from [Object.prototype]; a lookup
    of one of them in [CATEGORY_SOURCES] finds the inherited member, which
    the table of own properties does not show. *)
Definition inherited_names : list string :=
  ["constructor"; "hasOwnProperty"; "isPrototypeOf"; "propertyIsEnumerable";
   "toLocaleString"; "toString"; "valueOf"; "__proto__";
   "__defineGetter__"; "__defineSetter__"; "__lookupGetter__";
   "__lookupSetter__"].

(** Request [r] asks for some page, from 1 on, of a query whose key is in
    the cache [c] or is the key of [u']. *)
Definition asked_by (c : gmap (list string) Query) (u' : Ui) (r : Request)
  : Prop :=
  ∃ u page,
    r = the_request (activeCategory u) (searchTerm u) page ∧
    (1 ≤ page)%Z ∧
    (is_Some (c !! queryKey u) ∨ queryKey u = queryKey u').

(** The data after the first page of [short_net], and the fetch of page 2
    that a load-more starts from it. *)
Definition one_page : InfiniteData :=
  {| pages := [short_page 2]; pageParams := [1] |}.

Definition page_two_job (serial failures : nat) : Job :=
  {| job_closure := initial_ui; job_forward := true;
     job_old := one_page; job_acc := one_page;
     job_param := 2; job_serial := serial;
     job_call := queryFn initial_ui (Some 2);
     job_failureCount := failures |}.

(** The first page of "all" has arrived and "tech" has been picked. *)
Definition moved_to_tech : list Event :=
  [Settled (queryKey initial_ui); OnValueChange "tech"].

(** What the list makes of one item: the key [keyExtractor] gives it and
    the row [NewsItem] renders for it; [None] for an [undefined] item, on
    which the reads of [item.url] and [item.urlToImage] throw. *)
Definition row (item : option Article) : option (string * NewsItemView) :=
  (λ a, (keyExtractor a, NewsItem a)) <$> item.

(** A network whose answers have a body without [articles]. *)
Definition bare_net : nat → Request → AxiosOutcome :=
  λ _ _, Fulfilled {| status := 200; data := DataNoArticles |}.

(** * Properties *)

(** ** The request built by fetchNews *)

Lemma fetchNews_unfold a :
  ∃ k, fetchNews a =
       AxiosGet (the_request (default "all" (arg_category a))
                   (default "" (arg_searchTerm a)) (default 1 (arg_page a))) k
     ∧ ∀ r, k r = page_of_response (default 1 (arg_page a)) r.
Proof.
  eexists. split; [reflexivity|].
  intros [st d]. unfold page_of_response. simpl. by destruct d.
Qed.

Lemma fetchNews_run net n a :
  run net n (fetchNews a) =
  let p := default 1 (arg_page a) in
  let r := the_request (default "all" (arg_category a))
             (default "" (arg_searchTerm a)) p in
  ([r],
   match net n r with
   | Rejected e => inl (AxiosFailure e)
   | Fulfilled x =>
       match data x with
       | DataNullish => inl (TypeError "Cannot read property 'articles'")
       | DataNoArticles => inr {| articles := None; nextPage := p + 1 |}
       | DataArticles l => inr {| articles := Some l; nextPage := p + 1 |}
       end
   end).
Proof.
  destruct (fetchNews_unfold a) as (k & -> & Hk). simpl.
  destruct (net n _) as [e|x]; [done|].
  rewrite Hk. unfold page_of_response. by destruct (data x).
Qed.

Lemma params_other category searchTerm page key :
  key ≠ "sources" →
  fetchNews_params category searchTerm page !! key =
  (<["pageSize" := JNum 10]>
    (<["page" := JNum page]>
    (<["q" := JStr (or_else searchTerm "news")]>
    (<["apiKey" := JStr API_KEY]> (∅ : gmap string JsVal))))) !! key.
Proof.
  intros Hk. unfold fetchNews_params.
  destruct (decide (category ≠ "all")); [|done].
  destruct (CATEGORY_SOURCES !! category) as [s|]; [|done].
  destruct (truthy_string s); [|done].
  by rewrite lookup_insert_ne.
Qed.

Lemma params_sources category searchTerm page :
  fetchNews_params category searchTerm page !! "sources" =
  if decide (category = "all") then None
  else match CATEGORY_SOURCES !! category with
       | Some s => if truthy_string s then Some (JStr s) else None
       | None => None
       end.
Proof.
  unfold fetchNews_params.
  destruct (decide (category = "all")) as [->|Hc].
  - done.
  - rewrite decide_True by done.
    destruct (CATEGORY_SOURCES !! category) as [s|]; [|done].
    destruct (truthy_string s); [|done].
    by rewrite lookup_insert_eq.
Qed.

Lemma CATEGORY_SOURCES_picker category :
  category ∈ CATEGORIES → category ≠ "all" →
  ∃ s, CATEGORY_SOURCES !! category = Some s ∧ truthy_string s = true.
Proof.
  unfold CATEGORIES. rewrite !elem_of_cons, elem_of_nil.
  intros [->|[->|[->|[->|[->|[]]]]]] Hne; [done|..]; eexists; split; 
    vm_compute; reflexivity.
Qed.

(** C6: a fetch for a category of the picker other than "all" sends the
    table's source list for that category as [sources] ("tech" sends
    "techcrunch,wired"), a fetch for "all" sends no [sources]; no request
    carries a [category] parameter. *)
Theorem fetchNews_sends_category_sources net n a :
  default "all" (arg_category a) ∈ CATEGORIES →
  ∃ r, (run net n (fetchNews a)).1 = [r] ∧
    req_params r !! "category" = None ∧
    (default "all" (arg_category a) = "all" →
       req_params r !! "sources" = None) ∧
    (default "all" (arg_category a) ≠ "all" →
       ∃ s, CATEGORY_SOURCES !! default "all" (arg_category a) = Some s ∧
            req_params r !! "sources" = Some (JStr s)) ∧
    (default "all" (arg_category a) = "tech" →
       req_params r !! "sources" = Some (JStr "techcrunch,wired")).
Proof.
  intros Hin. rewrite fetchNews_run. eexists. split; [reflexivity|].
  cbn [req_params the_request]. split_and!.
  - by rewrite params_other.
  - intros Hall. rewrite params_sources. by rewrite decide_True.
  - intros Hne. destruct (CATEGORY_SOURCES_picker _ Hin Hne) as (s & Hs & Ht).
    exists s. split; [done|].
    rewrite params_sources, decide_False, Hs, Ht; done.
  - intros ->. by rewrite params_sources.
Qed.

Lemma fetchNews_sends_category_sources_witness :
  "tech" ∈ CATEGORIES ∧
  ∃ r, (run short_net 0
          (fetchNews (mkFetchArgs (Some "tech") (Some "") (Some 1)))).1 = [r] ∧
       req_params r !! "category" = None ∧
       req_params r !! "sources" = Some (JStr "techcrunch,wired").
Proof.
  assert ("tech" ∈ CATEGORIES) as Hin by (vm_compute; do 2 right; left).
  split; [exact Hin|].
  destruct (fetchNews_sends_category_sources short_net 0
              (mkFetchArgs (Some "tech") (Some "") (Some 1)) Hin)
    as (r & Hr & Hc & _ & _ & Htech).
  exists r. split; [exact Hr|]. split; [exact Hc|]. exact (Htech eq_refl).
Defined.

(** C7: the request's [q] is "news" when the search term is empty and the
    search term itself otherwise; its [pageSize] is 10. *)
Theorem fetchNews_sends_query_and_pageSize net n a :
  ∃ r, (run net n (fetchNews a)).1 = [r] ∧
    req_params r !! "q" =
      Some (JStr (if decide (default "" (arg_searchTerm a) = "")
                  then "news" else default "" (arg_searchTerm a))) ∧
    req_params r !! "pageSize" = Some (JNum 10).
Proof.
  rewrite fetchNews_run. eexists. split; [reflexivity|].
  cbn [req_params the_request]. split.
  - rewrite params_other by done. unfold or_else, truthy_string.
    rewrite lookup_insert_ne, lookup_insert_ne, lookup_insert_eq by done.
    by destruct (decide _).
  - rewrite params_other by done. by rewrite lookup_insert_eq.
Qed.

(** The request of the first page of category "tech" with no search term. *)
Example tech_first_page_request :
  req_params (the_request "tech" "" 1) !! "sources"
    = Some (JStr "techcrunch,wired") ∧
  req_params (the_request "tech" "" 1) !! "q" = Some (JStr "news") ∧
  req_params (the_request "tech" "" 1) !! "page" = Some (JNum 1) ∧
  req_params (the_request "tech" "" 1) !! "pageSize" = Some (JNum 10).
Proof. split_and!; vm_compute; reflexivity. Qed.

(** A category that is not in the table is sent without [sources]. *)
Example unknown_category_request :
  req_params (the_request "weather" "" 1) !! "sources" = None.
Proof. vm_compute. reflexivity. Qed.

(** ** Failures of the fetch layer *)

(** A response without an [articles] property is a page, not a failure. *)
Lemma fetch_layer_classifies_fails : ¬ Spec.fetch_layer_classifies.
Proof.
  intros H.
  destruct (H (λ _ _, Fulfilled (mkAxiosResponse 200 DataNoArticles))
              (mkFetchArgs None None None)) as (r & _ & Hr).
  rewrite fetchNews_run in Hr. simpl in Hr.
  destruct Hr as (f & Hf & _). discriminate.
Qed.

(** C8, as the code has it: a call makes exactly one request; a request
    rejected by axios (no response, or a status that is not a success) is
    thrown on unchanged; a fulfilled response is not checked for its shape:
    a [null] body throws a TypeError, a body without [articles] is returned
    as a page whose [articles] is undefined. *)
Theorem fetchNews_one_request_no_retry net n a :
  ∃ r, (run net n (fetchNews a)).1 = [r] ∧
    (run net n (fetchNews a)).2 =
    match net n r with
    | Rejected e => inl (AxiosFailure e)
    | Fulfilled x =>
        match data x with
        | DataNullish => inl (TypeError "Cannot read property 'articles'")
        | DataNoArticles =>
            inr {| articles := None; nextPage := default 1 (arg_page a) + 1 |}
        | DataArticles l =>
            inr {| articles := Some l;
                   nextPage := default 1 (arg_page a) + 1 |}
        end
    end.
Proof. rewrite fetchNews_run. eexists. split; reflexivity. Qed.

(** ** Query identity *)

Lemma identity_is_query_key_fails : ¬ Spec.identity_is_query_key.
Proof.
  intros H.
  destruct (H (mkUi "" "foo" "all") (mkUi "" " foo " "all")) as [_ H2].
  discriminate H2. split; reflexivity.
Qed.

Lemma ui_render u w : ui (render u w) = u.
Proof.
  unfold render. destruct (decide _); [done|]. by destruct (observe _ _ _).
Qed.

Lemma ui_set_query key q log w : ui (set_query key q log w) = ui w.
Proof. done. Qed.

Lemma ui_fetchNextPage w : ui (fetchNextPage w) = ui w.
Proof.
  unfold fetchNextPage. destruct (q_data _).
  - by destruct (start_fetch _ _ _ _ _) as [[??]|].
  - destruct (q_job _); [done|]. by destruct (observe _ _ _).
Qed.

Lemma ui_onEndReached w : ui (onEndReached w) = ui w.
Proof.
  unfold onEndReached. destruct (hook_status w); try done.
  destruct (hasNextPage w); [apply ui_fetchNextPage|done].
Qed.

Lemma ui_page_done key q j page w : ui (page_done key q j page w) = ui w.
Proof.
  unfold page_done. destruct (job_forward j); [done|].
  case_bool_decide; [|done]. by destruct (nextPageParam _).
Qed.

Lemma ui_page_failed key q j e w : ui (page_failed key q j e w) = ui w.
Proof.
  unfold page_failed. case_bool_decide; [|done].
  by destruct (start_fetch _ _ _ _ _) as [[??]|].
Qed.

Lemma ui_settled net key w : ui (settled net key w) = ui w.
Proof.
  unfold settled. destruct (cache w !! key) as [q|]; [|done].
  destruct (q_job q) as [j|]; [|done].
  destruct (resume net j);
    [apply ui_page_done|apply ui_page_failed|done].
Qed.

Lemma ui_gc key w : ui (gc key w) = ui w.
Proof.
  unfold gc. destruct (cache w !! key); [|done]. by case_bool_decide.
Qed.

(** C3, as the code has it: two states of the screen have the same query
    key exactly when their categories are equal and their search terms are
    equal as typed, white space included; neither the arrival of a page nor
    a request for the next one changes the key. *)
Theorem queryKey_identity net :
  (∀ q1 q2 : Ui,
     queryKey q1 = queryKey q2 ↔
     activeCategory q1 = activeCategory q2 ∧ searchTerm q1 = searchTerm q2) ∧
  (∀ w key, queryKey (ui (step net w (Settled key))) = queryKey (ui w)) ∧
  (∀ w, queryKey (ui (step net w OnEndReached)) = queryKey (ui w)).
Proof.
  split_and!.
  - intros q1 q2. unfold queryKey. split.
    + intros [= -> ->]. done.
    + intros [-> ->]. done.
  - intros w key. simpl. by rewrite ui_settled.
  - intros w. simpl. by rewrite ui_onEndReached.
Qed.

(** ** Typing and submitting *)

(** C10: a change of the text sets [searchInput] and nothing else: the
    submitted term, the category, the query key, the cache and the request
    log stay; submitting copies [searchInput] into [searchTerm]. *)
Theorem typing_only_changes_searchInput net w text :
  step net w (OnChangeText text) =
    {| ui := {| searchInput := text; searchTerm := searchTerm (ui w);
                activeCategory := activeCategory (ui w) |};
       cache := cache w; requests := requests w |} ∧
  queryKey (ui (step net w (OnChangeText text))) = queryKey (ui w) ∧
  hook_data (step net w (OnChangeText text)) = hook_data w ∧
  ui (step net w OnSubmit) =
    {| searchInput := searchInput (ui w); searchTerm := searchInput (ui w);
       activeCategory := activeCategory (ui w) |}.
Proof.
  assert (step net w (OnChangeText text) =
    {| ui := setSearchInput text (ui w);
       cache := cache w; requests := requests w |}) as Hs.
  { simpl. unfold render. by rewrite decide_True. }
  split_and!.
  - exact Hs.
  - by rewrite Hs.
  - by rewrite Hs.
  - simpl. by rewrite ui_render.
Qed.

(** ** The cache invariant *)

Section InvariantProofs.

Variable net : nat → Request → AxiosOutcome.

Lemma queryFn_key u u' p : queryKey u = queryKey u' → queryFn u p = queryFn u' p.
Proof. unfold queryKey, queryFn. by intros [= -> ->]. Qed.

Lemma queryFn_unfold u p :
  ∃ k, queryFn u (Some p) =
       AxiosGet (the_request (activeCategory u) (searchTerm u) p) k
     ∧ ∀ r, k r = page_of_response p r.
Proof.
  exact (fetchNews_unfold
           (mkFetchArgs (Some (activeCategory u)) (Some (searchTerm u))
              (Some p))).
Qed.

Lemma answer_key n u u' p :
  queryKey u = queryKey u' → answer net n u p = answer net n u' p.
Proof. intros H. unfold answer. by rewrite (queryFn_key u u' _ H). Qed.

Lemma answer_cases n u p :
  answer net n u p =
  match net n (the_request (activeCategory u) (searchTerm u) p) with
  | Rejected e => Throw (AxiosFailure e)
  | Fulfilled r => page_of_response p r
  end.
Proof.
  unfold answer. destruct (queryFn_unfold u p) as (k & -> & Hk).
  unfold settle. destruct (net n _); [done|apply Hk].
Qed.

Lemma answer_nextPage n u p page :
  answer net n u p = Return page → nextPage page = p + 1.
Proof.
  rewrite answer_cases. destruct (net n _) as [|r]; [done|].
  unfold page_of_response. destruct (data r); [done|..]; by intros [= <-].
Qed.

Lemma answer_not_get n u p r k : answer net n u p ≠ AxiosGet r k.
Proof.
  rewrite answer_cases. destruct (net n _) as [|x]; [done|].
  unfold page_of_response. by destruct (data x).
Qed.

Lemma first_request_queryFn u p :
  first_request (queryFn u (Some p)) =
  [the_request (activeCategory u) (searchTerm u) p].
Proof. by destruct (queryFn_unfold u p) as (k & -> & _). Qed.

Lemma pages_of_key u u' d :
  queryKey u = queryKey u' → pages_of net u d → pages_of net u' d.
Proof.
  intros H [Hp Ha]. split; [done|]. intros i page Hi.
  destruct (Ha i page Hi) as [n Hn]. exists n.
  by rewrite <- (answer_key n u u' _ H).
Qed.

Lemma pages_of_no_data u : pages_of net u no_data.
Proof. split; [done|]. intros i page. simpl. by rewrite lookup_nil. Qed.

Lemma pages_of_addToEnd u d n page :
  pages_of net u d →
  answer net n u (Z.of_nat (length (pages d)) + 1) = Return page →
  pages_of net u (addToEnd d page (Z.of_nat (length (pages d)) + 1)).
Proof.
  intros [Hp Ha] Hn. split.
  - simpl. rewrite length_app. simpl.
    replace (length (pages d) + 1)%nat with (S (length (pages d))) by lia.
    rewrite seqZ_S, Hp. f_equal. f_equal. lia.
  - intros i pg. simpl. intros Hi.
    apply lookup_app_Some in Hi as [Hi|[Hl Hi]]; [by apply Ha|].
    apply list_lookup_singleton_Some in Hi as [Hi <-].
    exists n. replace i with (length (pages d)) by lia. done.
Qed.

Lemma nextPageParam_pages_of u d p :
  pages_of net u d → nextPageParam d = Some p →
  p = Z.of_nat (length (pages d)) + 1 ∧ pages d ≠ [].
Proof.
  intros [_ Ha]. unfold nextPageParam, getNextPageParam.
  destruct (last (pages d)) as [page|] eqn:Hl; [|done].
  intros [= <-]. rewrite last_lookup in Hl.
  destruct (Ha _ _ Hl) as [n Hn]. apply answer_nextPage in Hn.
  assert (pages d ≠ []) as Hne.
  { intros He. rewrite He in Hl. done. }
  split; [|done]. rewrite Hn.
  destruct (pages d); [done|]. simpl. lia.
Qed.

Lemma nextPageParam_is_Some u d :
  pages_of net u d → pages d ≠ [] →
  nextPageParam d = Some (Z.of_nat (length (pages d)) + 1).
Proof.
  intros Hd Hne.
  destruct (nextPageParam d) as [p|] eqn:Hp.
  - by destruct (nextPageParam_pages_of u d p Hd Hp) as [-> _].
  - unfold nextPageParam in Hp.
    destruct (last (pages d)) eqn:Hl; [done|]. by apply last_None in Hl.
Qed.

Lemma head_pageParams u d :
  pages_of net u d → default initialPageParam (head (pageParams d)) = 1.
Proof.
  intros [-> _]. destruct (pages d) as [|x l]; [done|].
  rewrite seqZ_cons by (simpl; lia). done.
Qed.

(** A fetch begun from the data of an entry is a correct job for it. *)
Lemma start_fetch_ok u0 u q q' fw f log j log' :
  queryKey u0 = queryKey u →
  (∀ d, q_data q = Some d → pages_of net u d ∧ pages d ≠ []) →
  q_data q' = q_data q →
  start_fetch u0 fw (default no_data (q_data q)) f log = Some (j, log') →
  job_ok net u q' j.
Proof.
  intros Hk Hd Hq'. unfold start_fetch.
  assert (pages_of net u (default no_data (q_data q))) as Hold.
  { destruct (q_data q) as [d|]; [by apply Hd|apply pages_of_no_data]. }
  destruct fw.
  - destruct (nextPageParam _) as [p|] eqn:Hp; [|done].
    intros [= <- <-]. destruct (nextPageParam_pages_of _ _ _ Hold Hp) as [-> _].
    unfold job_ok. simpl. rewrite Hq'. done.
  - intros [= <- <-]. unfold job_ok. simpl. rewrite Hq'.
    rewrite (head_pageParams u) by done.
    split_and!; first [done|apply pages_of_no_data].
Qed.

Lemma query_ok_fetching u q j :
  query_ok net u q → job_ok net u q j → query_ok net u (fetching q j).
Proof.
  intros (Hd & Hs & Hj) Hjob. unfold fetching.
  destruct (q_data q) as [d|] eqn:Hq.
  - split_and!; simpl; [by intros ? [= <-]; apply Hd|eauto|].
    intros ? [= <-]. unfold job_ok in *. simpl. by rewrite Hq in Hjob.
  - split_and!; simpl; [done|done|].
    intros ? [= <-]. unfold job_ok in *. simpl. by rewrite Hq in Hjob.
Qed.

Lemma query_ok_with_job u q j :
  query_ok net u q → job_ok net u q j → query_ok net u (with_job q j).
Proof.
  intros (Hd & Hs & Hj) Hjob. split_and!; simpl; [done|done|].
  by intros ? [= <-].
Qed.

Lemma query_ok_failed u q e : query_ok net u q → query_ok net u (failed q e).
Proof. intros (Hd & Hs & Hj). split_and!; simpl; done. Qed.

Lemma query_ok_succeeded u d :
  pages_of net u d → pages d ≠ [] → query_ok net u (succeeded d).
Proof.
  intros Hd Hne. split_and!; simpl; [by intros ? [= <-]|eauto|done].
Qed.

Lemma query_ok_new u : query_ok net u new_query.
Proof. split_and!; simpl; done. Qed.

Lemma cache_ok_insert w key u q log :
  cache_ok net w → key = queryKey u → query_ok net u q →
  cache_ok net (set_query key q log w).
Proof.
  intros Hw -> Hq key' q'. simpl. rewrite lookup_insert.
  case_decide as Hk; [|apply Hw]. intros [= <-]. eauto.
Qed.

(** The entry under the key of [u] is replaced by a correct one. *)
Ltac replace_entry w u lem :=
  apply (cache_ok_insert w _ u); [done|done|by apply lem].

Lemma cache_ok_fetch_all w u u0 q f c log :
  cache_ok net w → queryKey u = queryKey u0 → query_ok net u0 q →
  fetch_all u q f (cache w) (requests w) = (c, log) →
  cache_ok net {| ui := u; cache := c; requests := log |}.
Proof.
  intros Hw Hk Hq. unfold fetch_all.
  destruct (start_fetch _ _ _ _ _) as [[j log']|] eqn:Hs.
  - intros [= <- <-].
    apply (cache_ok_insert w (queryKey u) u0 _ log' Hw Hk).
    apply query_ok_fetching; [done|].
    eapply start_fetch_ok; [exact Hk|apply Hq|done|exact Hs].
  - intros [= <- <-]. exact Hw.
Qed.

Lemma cache_ok_observe w u c log :
  cache_ok net w →
  observe u (cache w) (requests w) = (c, log) →
  cache_ok net {| ui := u; cache := c; requests := log |}.
Proof.
  intros Hw. unfold observe.
  destruct (cache w !! queryKey u) as [q|] eqn:Hq.
  - destruct (Hw _ _ Hq) as (u0 & Hk & Hok).
    destruct (q_job q).
    + intros [= <- <-]. exact Hw.
    + by apply (cache_ok_fetch_all w u u0).
  - apply (cache_ok_fetch_all w u u); [done|done|apply query_ok_new].
Qed.

Lemma cache_ok_render w u : cache_ok net w → cache_ok net (render u w).
Proof.
  intros Hw. unfold render. destruct (decide _); [exact Hw|].
  destruct (observe _ _ _) as [c log] eqn:Ho.
  by apply (cache_ok_observe w).
Qed.

Lemma observed_ok w :
  cache_ok net w → query_ok net (ui w) (observed w).
Proof.
  intros Hw. unfold observed.
  destruct (cache w !! queryKey (ui w)) as [q|] eqn:Hq; simpl.
  - destruct (Hw _ _ Hq) as (u0 & Hk & (Hd & Hs & Hj)).
    split_and!; [|done|].
    + intros d Hdq. destruct (Hd d Hdq). split; [|done].
      by apply (pages_of_key u0).
    + intros j Hjq. destruct (Hj j Hjq) as (H1 & H2 & H3 & H4 & H5 & H6).
      split_and!; try done; [congruence|by apply (pages_of_key u0)].
  - apply query_ok_new.
Qed.

Lemma cache_ok_fetchNextPage w : cache_ok net w → cache_ok net (fetchNextPage w).
Proof.
  intros Hw. pose proof (observed_ok w Hw) as Hok.
  unfold fetchNextPage.
  destruct (q_data (observed w)) as [d|] eqn:Hd.
  - destruct (start_fetch _ _ _ _ _) as [[j log]|] eqn:Hs; [|done].
    apply (cache_ok_insert w _ (ui w) _ log Hw eq_refl).
    apply query_ok_fetching; [done|].
    eapply (start_fetch_ok (ui w) (ui w) (observed w)); [done|apply Hok|done|].
    rewrite Hd. exact Hs.
  - destruct (q_job _); [done|].
    destruct (observe _ _ _) as [c log] eqn:Ho.
    by apply (cache_ok_observe w).
Qed.

Lemma cache_ok_onEndReached w : cache_ok net w → cache_ok net (onEndReached w).
Proof.
  intros Hw. unfold onEndReached. destruct (hook_status w); try done.
  destruct (hasNextPage w); [by apply cache_ok_fetchNextPage|done].
Qed.

Lemma resume_answer u q j :
  job_ok net u q j →
  resume net j = answer net (job_serial j) u (job_param j).
Proof.
  intros (Hk & Hc & _). unfold resume, answer.
  by rewrite Hc, (queryFn_key _ _ _ Hk).
Qed.

Lemma cache_ok_page_done w u q j page :
  cache_ok net w → query_ok net u q → job_ok net u q j →
  resume net j = Return page →
  cache_ok net (page_done (queryKey u) q j page w).
Proof.
  intros Hw Hq Hj Hr. rewrite (resume_answer u q j Hj) in Hr.
  destruct Hj as (Hk & Hc & Ho & Ha & Hp & Hf).
  assert (pages_of net u (addToEnd (job_acc j) page (job_param j))) as Hacc.
  { rewrite Hp. eapply pages_of_addToEnd; [done|]. by rewrite <- Hp. }
  assert (pages (addToEnd (job_acc j) page (job_param j)) ≠ []) as Hne.
  { simpl. by destruct (pages (job_acc j)). }
  unfold page_done.
  destruct (job_forward j); [replace_entry w u query_ok_succeeded|].
  case_bool_decide; [|replace_entry w u query_ok_succeeded].
  destruct (nextPageParam _) as [p|] eqn:Hn;
    [|replace_entry w u query_ok_succeeded].
  unfold call_page.
  apply (cache_ok_insert w _ u); [done|done|].
  apply query_ok_with_job; [done|].
  destruct (nextPageParam_pages_of _ _ _ Hacc Hn) as [-> _].
  unfold job_ok. simpl. done.
Qed.

Lemma cache_ok_page_failed w u q j e :
  cache_ok net w → query_ok net u q → job_ok net u q j →
  cache_ok net (page_failed (queryKey u) q j e w).
Proof.
  intros Hw Hq Hj. unfold page_failed.
  case_bool_decide; [|replace_entry w u query_ok_failed].
  destruct (start_fetch _ _ _ _ _) as [[j' log]|] eqn:Hs;
    [|replace_entry w u query_ok_failed].
  apply (cache_ok_insert w _ u); [done|done|].
  apply query_ok_with_job; [done|].
  destruct Hj as (Hk & Hc & Ho & Ha & Hp & Hf). rewrite Ho in Hs.
  eapply (start_fetch_ok _ u q q); [exact Hk|apply Hq|done|exact Hs].
Qed.

Lemma cache_ok_settled w key : cache_ok net w → cache_ok net (settled net key w).
Proof.
  intros Hw. unfold settled.
  destruct (cache w !! key) as [q|] eqn:Hq; [|done].
  destruct (Hw _ _ Hq) as (u & -> & Hok).
  destruct (q_job q) as [j|] eqn:Hj; [|done].
  assert (job_ok net u q j) as Hjob by by apply Hok.
  destruct (resume net j) as [page|e|r k] eqn:Hr.
  - by apply cache_ok_page_done.
  - by apply cache_ok_page_failed.
  - rewrite (resume_answer u q j Hjob) in Hr. by apply answer_not_get in Hr.
Qed.

Lemma cache_ok_gc w key : cache_ok net w → cache_ok net (gc key w).
Proof.
  intros Hw. unfold gc. destruct (cache w !! key) as [q|]; [|done].
  case_bool_decide; [|done].
  intros key' q'. simpl. rewrite lookup_delete.
  case_decide; [done|apply Hw].
Qed.

Lemma cache_ok_step w e : cache_ok net w → cache_ok net (step net w e).
Proof.
  intros Hw. destruct e; simpl.
  - by apply cache_ok_render.
  - by apply cache_ok_render.
  - by apply cache_ok_render.
  - by apply cache_ok_onEndReached.
  - by apply cache_ok_settled.
  - by apply cache_ok_gc.
Qed.

Lemma cache_ok_mount : cache_ok net mount.
Proof.
  unfold mount. destruct (observe _ _ _) as [c log] eqn:Ho.
  apply (cache_ok_observe {| ui := initial_ui; cache := ∅; requests := [] |});
    [|exact Ho].
  intros key q. simpl. by rewrite lookup_empty.
Qed.

Lemma cache_ok_run es : cache_ok net (run_events net es).
Proof.
  unfold run_events. induction es as [|e es IH] using rev_ind.
  - apply cache_ok_mount.
  - rewrite foldl_app. simpl. by apply cache_ok_step.
Qed.

End InvariantProofs.

(** ** Pages and the next page *)

Section Reachable.

Variable net : nat → Request → AxiosOutcome.

Lemma hook_data_ok es d :
  hook_data (run_events net es) = Some d →
  pages_of net (ui (run_events net es)) d ∧ pages d ≠ [].
Proof.
  intros Hd. by apply (observed_ok net _ (cache_ok_run net es)).
Qed.

Lemma hasNextPage_loaded es d :
  hook_data (run_events net es) = Some d →
  nextPageParam d = Some (Z.of_nat (length (pages d)) + 1) ∧
  hasNextPage (run_events net es) = true.
Proof.
  intros Hd. destruct (hook_data_ok es d Hd) as [Hp Hne].
  pose proof (nextPageParam_is_Some net _ d Hp Hne) as Hn.
  split; [done|]. unfold hasNextPage. rewrite Hd, Hn.
  by apply bool_decide_eq_true.
Qed.

Lemma requests_fetchNextPage w d p :
  hook_data w = Some d → nextPageParam d = Some p →
  requests (fetchNextPage w) =
  (requests w ++
   [the_request (activeCategory (ui w)) (searchTerm (ui w)) p])%list.
Proof.
  intros Hd Hp. unfold fetchNextPage. unfold hook_data in Hd. rewrite Hd.
  unfold start_fetch, call_page. rewrite Hp. cbv beta iota zeta.
  cbn [requests]. by rewrite first_request_queryFn.
Qed.

Lemma cache_page_done_other key q j page w key' :
  key' ≠ key → cache (page_done key q j page w) !! key' = cache w !! key'.
Proof.
  intros Hk. unfold page_done.
  destruct (job_forward j); [by apply lookup_insert_ne|].
  case_bool_decide; [|by apply lookup_insert_ne].
  destruct (nextPageParam _); by apply lookup_insert_ne.
Qed.

Lemma cache_page_failed_other key q j e w key' :
  key' ≠ key → cache (page_failed key q j e w) !! key' = cache w !! key'.
Proof.
  intros Hk. unfold page_failed.
  case_bool_decide; [|by apply lookup_insert_ne].
  destruct (start_fetch _ _ _ _ _) as [[??]|]; by apply lookup_insert_ne.
Qed.

Lemma cache_settled_other key w key' :
  key' ≠ key → cache (settled net key w) !! key' = cache w !! key'.
Proof.
  intros Hk. unfold settled. destruct (cache w !! key) as [q|]; [|done].
  destruct (q_job q) as [j|]; [|done].
  destruct (resume net j).
  - by apply cache_page_done_other.
  - by apply cache_page_failed_other.
  - by apply lookup_insert_ne.
Qed.

Lemma hook_data_new_key u w :
  cache w !! queryKey u = None → hook_data (render u w) = None.
Proof.
  intros Hn. unfold hook_data, observed, render.
  destruct (decide _) as [He|He].
  - cbn [ui cache]. by rewrite Hn.
  - unfold observe, fetch_all, start_fetch, call_page. rewrite Hn.
    cbv beta iota zeta. cbn [ui cache]. by rewrite lookup_insert_eq.
Qed.

End Reachable.

(** C1, as stated, fails: after a first page of three articles the end of
    the list asks for page 2. *)
Lemma short_page_exhausts_fails : ¬ Spec.short_page_exhausts.
Proof.
  intros H.
  assert (step short_net (run_events short_net first_page_loaded) OnEndReached
          = run_events short_net first_page_loaded) as Heq.
  { eapply H.
    - vm_compute. reflexivity.
    - vm_compute. reflexivity.
    - eexists. split; [reflexivity|]. vm_compute. lia. }
  apply (f_equal (λ w, length (requests w))) in Heq.
  vm_compute in Heq. discriminate.
Qed.

(** C1, as the code has it: whatever the number of articles of the pages
    fetched so far, while the list is on screen there is a next page, and
    reaching the end of the list sends the request for the page after the
    last one, with the category and search term of the screen. *)
Theorem short_page_still_loads_more net es d :
  hook_data (run_events net es) = Some d →
  hook_status (run_events net es) = StatusSuccess →
  hasNextPage (run_events net es) = true ∧
  requests (step net (run_events net es) OnEndReached) =
  (requests (run_events net es) ++
   [the_request (activeCategory (ui (run_events net es)))
      (searchTerm (ui (run_events net es)))
      (Z.of_nat (length (pages d)) + 1)])%list.
Proof.
  intros Hd Hs. destruct (hasNextPage_loaded net es d Hd) as [Hn Hh].
  split; [done|]. simpl. unfold onEndReached. rewrite Hs, Hh.
  by apply (requests_fetchNextPage _ d).
Qed.

Lemma short_page_still_loads_more_witness :
  hook_data (run_events short_net first_page_loaded)
    = Some {| pages := [short_page 2]; pageParams := [1] |} ∧
  hook_status (run_events short_net first_page_loaded) = StatusSuccess ∧
  hasNextPage (run_events short_net first_page_loaded) = true ∧
  requests (step short_net (run_events short_net first_page_loaded)
              OnEndReached) =
  (requests (run_events short_net first_page_loaded) ++
   [the_request "all" "" 2])%list.
Proof.
  assert (hook_data (run_events short_net first_page_loaded)
          = Some {| pages := [short_page 2]; pageParams := [1] |}) as Hd
    by (vm_compute; reflexivity).
  assert (hook_status (run_events short_net first_page_loaded)
          = StatusSuccess) as Hs by (vm_compute; reflexivity).
  split; [exact Hd|]. split; [exact Hs|].
  exact (short_page_still_loads_more short_net first_page_loaded _ Hd Hs).
Defined.

(** C9: a call of [fetchNews] for page [p] that returns a page returns it
    with [nextPage = p + 1], whatever the response held, so
    [getNextPageParam] of it is defined; and whenever the screen has data
    there is a next page. *)
Theorem nextPage_is_page_plus_one net :
  (∀ n a reqs page,
     run net n (fetchNews a) = (reqs, inr page) →
     nextPage page = default 1 (arg_page a) + 1 ∧
     getNextPageParam page = Some (default 1 (arg_page a) + 1)) ∧
  (∀ es d,
     hook_data (run_events net es) = Some d →
     hasNextPage (run_events net es) = true).
Proof.
  split.
  - intros n a reqs page. rewrite fetchNews_run. simpl.
    unfold getNextPageParam.
    destruct (net n _) as [e|x]; [done|].
    destruct (data x); [done|..]; by intros [= _ <-].
  - intros es d Hd. by destruct (hasNextPage_loaded net es d Hd).
Qed.

Lemma nextPage_is_page_plus_one_witness :
  (run (λ _ _, Fulfilled (mkAxiosResponse 200 DataNoArticles)) 0
     (fetchNews (mkFetchArgs None None (Some 7)))).2
    = inr {| articles := None; nextPage := 8 |} ∧
  getNextPageParam {| articles := None; nextPage := 8 |} = Some 8 ∧
  hook_data (run_events short_net two_pages_loaded)
    = Some {| pages := [short_page 2; short_page 3]; pageParams := [1; 2] |} ∧
  hasNextPage (run_events short_net two_pages_loaded) = true.
Proof.
  destruct (nextPage_is_page_plus_one
              (λ _ _, Fulfilled (mkAxiosResponse 200 DataNoArticles)))
    as [Hf _].
  destruct (nextPage_is_page_plus_one short_net) as [_ Hw].
  assert (hook_data (run_events short_net two_pages_loaded)
          = Some {| pages := [short_page 2; short_page 3];
                    pageParams := [1; 2] |}) as Hd
    by (vm_compute; reflexivity).
  split_and!.
  - vm_compute. reflexivity.
  - refine (proj2 (Hf 0%nat (mkFetchArgs None None (Some 7)) _ _ _)).
    vm_compute. reflexivity.
  - exact Hd.
  - exact (Hw two_pages_loaded _ Hd).
Defined.

(** ** Stale results *)

(** C2: whatever the user and the network did, every page the screen's
    query holds was made from a fulfilled response to the request for that
    page number built from the category and search term now on screen; when
    a fetch filed under another key settles, the entry of the current key
    and the data shown stay as they were; and turning to a key that has no
    entry shows no data at all. *)
Theorem stale_pages_stay_out_of_current_cache net es :
  (∀ d (i : nat) page,
     hook_data (run_events net es) = Some d →
     pages d !! i = Some page →
     ∃ n r,
       net n (the_request (activeCategory (ui (run_events net es)))
                (searchTerm (ui (run_events net es))) (Z.of_nat i + 1))
       = Fulfilled r ∧
       page_of_response (Z.of_nat i + 1) r = Return page) ∧
  (∀ key,
     key ≠ queryKey (ui (run_events net es)) →
     cache (step net (run_events net es) (Settled key))
       !! queryKey (ui (run_events net es))
     = cache (run_events net es) !! queryKey (ui (run_events net es)) ∧
     hook_data (step net (run_events net es) (Settled key))
     = hook_data (run_events net es)) ∧
  (∀ u,
     cache (run_events net es) !! queryKey u = None →
     hook_data (render u (run_events net es)) = None).
Proof.
  split_and!.
  - intros d i page Hd Hi.
    destruct (hook_data_ok net es d Hd) as [[_ Ha] _].
    destruct (Ha i page Hi) as [n Hn]. rewrite answer_cases in Hn.
    exists n. destruct (net n _) as [e|r] eqn:Hr; [done|]. by exists r.
  - intros key Hk.
    assert (cache (step net (run_events net es) (Settled key))
              !! queryKey (ui (run_events net es))
            = cache (run_events net es) !! queryKey (ui (run_events net es)))
      as Hc by (simpl; by apply cache_settled_other).
    split; [exact Hc|]. unfold hook_data, observed.
    replace (ui (step net (run_events net es) (Settled key)))
      with (ui (run_events net es)) by (simpl; by rewrite ui_settled).
    by rewrite Hc.
  - intros u. apply hook_data_new_key.
Qed.

Lemma stale_pages_stay_out_of_current_cache_witness :
  hook_data (run_events echo_net race)
    = Some {| pages := [{| articles := Some [sample_article "B"];
                           nextPage := 2 |}];
              pageParams := [1] |} ∧
  key_A ≠ queryKey (ui (run_events echo_net race)) ∧
  (∃ n r,
     echo_net n (the_request "all" "B" 1) = Fulfilled r ∧
     page_of_response 1 r =
       Return {| articles := Some [sample_article "B"]; nextPage := 2 |}) ∧
  hook_data (step echo_net (run_events echo_net race) (Settled key_A)) =
  hook_data (run_events echo_net race).
Proof.
  destruct (stale_pages_stay_out_of_current_cache echo_net race)
    as (Hp & Hs & _).
  assert (hook_data (run_events echo_net race)
          = Some {| pages := [{| articles := Some [sample_article "B"];
                                 nextPage := 2 |}];
                    pageParams := [1] |}) as Hd
    by (vm_compute; reflexivity).
  assert (key_A ≠ queryKey (ui (run_events echo_net race))) as Hk
    by (vm_compute; discriminate).
  split_and!.
  - exact Hd.
  - exact Hk.
  - exact (Hp _ 0%nat _ Hd eq_refl).
  - exact (proj2 (Hs key_A Hk)).
Defined.

(** The race itself: the page for "A", arriving last, is filed under the
    key of "A"; the list shows the article for "B" only. *)
Example race_shows_only_B :
  allNews (hook_data (run_events echo_net race)) = [Some (sample_article "B")] ∧
  allNews (q_data (default new_query
                     (cache (run_events echo_net race) !! key_A)))
    = [Some (sample_article "A")].
Proof. split; vm_compute; reflexivity. Qed.

(** ** The list shown *)

Lemma dedup_from_length seen items :
  (length (Spec.dedup_from seen items) ≤ length items)%nat.
Proof.
  revert seen. induction items as [|x l IH]; intros seen; simpl; [lia|].
  destruct (decide _); simpl; [specialize (IH seen)|
                               specialize (IH (Spec.identity_key x :: seen))];
    lia.
Qed.

Lemma dedup_from_fixed seen items :
  Spec.dedup_from seen items = items ↔
  NoDup (Spec.identity_key <$> items) ∧
  ∀ x, x ∈ items → Spec.identity_key x ∉ seen.
Proof.
  revert seen. induction items as [|x l IH]; intros seen; simpl.
  - split; [|done]. intros _. split; [constructor|]. by intros x Hx%elem_of_nil.
  - destruct (decide _) as [Hin|Hin].
    + split.
      * intros He. pose proof (dedup_from_length seen l) as Hl.
        rewrite He in Hl. simpl in Hl. lia.
      * intros [_ Hs]. exfalso. apply (Hs x); [left|done].
    + rewrite NoDup_cons. split.
      * intros [= He]. apply IH in He as [Hnd Hs]. split_and!; [|done|].
        -- intros (y & Hy & Hyl)%list_elem_of_fmap.
           apply (Hs y Hyl). rewrite <- Hy. left.
        -- intros y [->|Hy]%elem_of_cons; [done|].
           intros Hys. apply (Hs y Hy). by right.
      * intros [[Hx Hnd] Hs]. f_equal. apply IH. split; [done|].
        intros y Hy [He|Hys]%elem_of_cons.
        -- apply Hx. rewrite <- He. by apply list_elem_of_fmap_2.
        -- apply (Hs y); [by right|done].
Qed.

(** Items with the same (url, publishedAt) pair get the same row key. *)
Lemma keyExtractor_identity_key a b :
  Spec.identity_key (Some a) = Spec.identity_key (Some b) →
  keyExtractor a = keyExtractor b.
Proof. unfold keyExtractor. simpl. by intros [= -> ->]. Qed.

(** C4, as stated, fails: when two pages bring the same articles, the list
    shows them twice. *)
Lemma items_are_deduplicated_fails : ¬ Spec.items_are_deduplicated.
Proof.
  intros H. specialize (H short_net two_pages_loaded).
  apply (f_equal length) in H. vm_compute in H. discriminate.
Qed.

Lemma count_page_items page a :
  length (filter (λ x, x = Some a) (page_items page)) =
  length (filter (λ b, b = a) (default [] (articles page))).
Proof.
  unfold page_items. destruct (articles page) as [l|]; simpl; [|done].
  induction l as [|b l IH]; [done|].
  rewrite fmap_cons, !filter_cons.
  destruct (decide (b = a)) as [->|Hne].
  - rewrite decide_True by done. simpl. by rewrite IH.
  - rewrite decide_False by congruence. exact IH.
Qed.

(** C4, as the code has it: the list shown is exactly the pages' articles
    one after the other in feed order, nothing removed (a page without an
    array gives one undefined row), so an article occurs in it as many
    times as it occurs in the fetched pages; the (url, publishedAt) pair
    takes no part in building the list: it only fixes the row key, which
    depends on nothing else of the article; and the list is equal to its
    first-occurrence deduplication by that pair exactly when no two of its
    rows share the pair. *)
Theorem allNews_keeps_every_item (d : InfiniteData) :
  allNews (Some d) =
    concat ((λ page, match articles page with
                     | Some l => Some <$> l
                     | None => [None]
                     end) <$> pages d) ∧
  (∀ a, length (filter (λ x, x = Some a) (allNews (Some d))) =
        sum_list_with
          (λ page, length (filter (λ b, b = a) (default [] (articles page))))
          (pages d)) ∧
  (∀ u p t1 d1 i1 s1 a1 t2 d2 i2 s2 a2,
     keyExtractor (mkArticle u t1 d1 i1 p s1 a1) =
     keyExtractor (mkArticle u t2 d2 i2 p s2 a2)) ∧
  (allNews (Some d) = Spec.dedup (allNews (Some d)) ↔
   NoDup (Spec.identity_key <$> allNews (Some d))).
Proof.
  split_and!.
  - simpl. induction (pages d) as [|page l IH]; simpl; [done|].
    by rewrite IH.
  - intros a. simpl. induction (pages d) as [|page l IH]; simpl; [done|].
    by rewrite filter_app, length_app, IH, count_page_items.
  - reflexivity.
  - unfold Spec.dedup. split.
    + intros He. symmetry in He. by apply dedup_from_fixed in He as [? _].
    + intros Hnd. symmetry. apply dedup_from_fixed. split; [done|].
      intros x _. apply not_elem_of_nil.
Qed.

(** Three articles fetched on each of two pages are six rows, each article
    twice. *)
Example two_pages_show_articles_twice :
  allNews (hook_data (run_events short_net two_pages_loaded)) =
    (page_items (short_page 2) ++ page_items (short_page 3))%list ∧
  length (filter (λ x, x = Some (sample_article "a"))
            (allNews (hook_data (run_events short_net two_pages_loaded))))
    = 2%nat.
Proof. split; vm_compute; reflexivity. Qed.

(** C5: the list shown is the concatenation of the pages' items in the
    order of the cache, each page's own order kept; a page added at the end
    adds its items at the end; and the order of the cache is the order of
    page numbers: the screen's data was fetched with page parameters 1, 2,
    ..., n, the page at position [i] (from 0) being the one for page
    number [i + 1]. *)
Theorem allNews_is_concatenation net :
  (∀ d, allNews (Some d) = concat (page_items <$> pages d)) ∧
  (∀ d page param,
     allNews (Some (addToEnd d page param)) =
     (allNews (Some d) ++ page_items page)%list) ∧
  (∀ page l, articles page = Some l → page_items page = Some <$> l) ∧
  (∀ es d,
     hook_data (run_events net es) = Some d →
     pageParams d = seqZ 1 (Z.of_nat (length (pages d))) ∧
     ∀ (i : nat) page,
       pages d !! i = Some page → nextPage page = Z.of_nat i + 2).
Proof.
  split_and!.
  - intros d. simpl. induction (pages d) as [|page l IH]; simpl; [done|].
    by rewrite IH.
  - intros d page param. simpl. rewrite flat_map_app. simpl.
    by rewrite app_nil_r.
  - intros page l Hl. unfold page_items. by rewrite Hl.
  - intros es d Hd. destruct (hook_data_ok net es d Hd) as [[Hp Ha] _].
    split; [done|]. intros i page Hi. destruct (Ha i page Hi) as [n Hn].
    apply answer_nextPage in Hn. lia.
Qed.

Lemma allNews_is_concatenation_witness :
  hook_data (run_events short_net two_pages_loaded)
    = Some {| pages := [short_page 2; short_page 3]; pageParams := [1; 2] |} ∧
  seqZ 1 2 = [1; 2] ∧
  nextPage (short_page 3) = 3 ∧
  page_items (short_page 2) =
    [Some (sample_article "a"); Some (sample_article "b");
     Some (sample_article "c")].
Proof.
  destruct (allNews_is_concatenation short_net) as (_ & _ & Hi & Ho).
  assert (hook_data (run_events short_net two_pages_loaded)
          = Some {| pages := [short_page 2; short_page 3];
                    pageParams := [1; 2] |}) as Hd
    by (vm_compute; reflexivity).
  destruct (Ho two_pages_loaded _ Hd) as [Hp Hn].
  split_and!.
  - exact Hd.
  - symmetry. exact Hp.
  - exact (Hn 1%nat (short_page 3) eq_refl).
  - exact (Hi (short_page 2) _ eq_refl).
Defined.

(** * Further properties of the code *)

(** ** fetchNews: the request *)

Lemma or_else_not_empty a b : b ≠ "" → or_else a b ≠ "".
Proof.
  intros Hb. unfold or_else, truthy_string. by destruct (decide (a = "")).
Qed.

Lemma or_else_truthy a b : a ≠ "" → or_else a b = a.
Proof.
  intros Ha. unfold or_else, truthy_string. by destruct (decide (a = "")).
Qed.

Lemma params_q c t p :
  fetchNews_params c t p !! "q" = Some (JStr (or_else t "news")).
Proof.
  rewrite params_other by done.
  do 2 (rewrite lookup_insert_ne by done). by rewrite lookup_insert_eq.
Qed.

Lemma params_page c t p : fetchNews_params c t p !! "page" = Some (JNum p).
Proof.
  rewrite params_other by done.
  rewrite lookup_insert_ne by done. by rewrite lookup_insert_eq.
Qed.

(** X1: the free-text parameter [q] of a request is never the empty
    string, whatever the search term. *)
Theorem fetchNews_query_never_empty net n a :
  ∃ r q, (run net n (fetchNews a)).1 = [r] ∧
    req_params r !! "q" = Some (JStr q) ∧ q ≠ "".
Proof.
  rewrite fetchNews_run. eexists _, _. split; [reflexivity|].
  cbn [req_params the_request]. split.
  - apply params_q.
  - by apply or_else_not_empty.
Qed.

(** X2: every request goes to the [everything] endpoint with the API key
    and the page number asked for, and has no parameter besides [apiKey],
    [q], [page], [pageSize] and [sources]. *)
Theorem fetchNews_request_shape net n a :
  ∃ r, (run net n (fetchNews a)).1 = [r] ∧
    req_url r = "https://newsapi.org/v2/everything" ∧
    req_params r !! "apiKey" = Some (JStr API_KEY) ∧
    req_params r !! "page" = Some (JNum (default 1 (arg_page a))) ∧
    ∀ key, is_Some (req_params r !! key) →
           key ∈ ["apiKey"; "q"; "page"; "pageSize"; "sources"].
Proof.
  rewrite fetchNews_run. eexists. split; [reflexivity|].
  cbn [req_params req_url the_request]. split_and!.
  - reflexivity.
  - rewrite params_other by done.
    do 3 (rewrite lookup_insert_ne by done). by rewrite lookup_insert_eq.
  - apply params_page.
  - intros key [v Hv].
    destruct (decide (key = "sources")) as [->|Hs]; [set_solver|].
    rewrite params_other in Hv by done.
    rewrite !lookup_insert, lookup_empty in Hv.
    repeat case_decide; subst; set_solver.
Qed.

(** X3: a category without an entry in the table is fetched exactly like
    "all" (and like a call without a category): the same request, the same
    handling of the response. *)
Theorem fetchNews_unknown_category category searchTerm page :
  category ∉ inherited_names →
  CATEGORY_SOURCES !! category = None →
  fetchNews (mkFetchArgs (Some category) searchTerm page) =
    fetchNews (mkFetchArgs (Some "all") searchTerm page) ∧
  fetchNews (mkFetchArgs (Some category) searchTerm page) =
    fetchNews (mkFetchArgs None searchTerm page).
Proof.
  intros _ Hnone.
  assert (∀ t p, fetchNews_params category t p = fetchNews_params "all" t p)
    as Hp.
  { intros t p. unfold fetchNews_params. rewrite Hnone.
    by destruct (decide (category ≠ "all")). }
  unfold fetchNews. simpl. by rewrite Hp.
Qed.

Lemma fetchNews_unknown_category_witness :
  ("weather" ∉ inherited_names) ∧
  CATEGORY_SOURCES !! "weather" = None ∧
  fetchNews (mkFetchArgs (Some "weather") (Some "rain") (Some 2)) =
    fetchNews (mkFetchArgs (Some "all") (Some "rain") (Some 2)).
Proof.
  assert ("weather" ∉ inherited_names) as Hn.
  { unfold inherited_names. rewrite !not_elem_of_cons.
    split_and!; try discriminate. apply not_elem_of_nil. }
  assert (CATEGORY_SOURCES !! "weather" = None) as Hc
    by (vm_compute; reflexivity).
  split; [exact Hn|]. split; [exact Hc|].
  exact (proj1 (fetchNews_unknown_category "weather" (Some "rain") (Some 2)
                  Hn Hc)).
Defined.

Lemma CATEGORY_SOURCES_inj c c' :
  c ∈ CATEGORIES → c' ∈ CATEGORIES →
  fetchNews_params c "" 1 !! "sources" = fetchNews_params c' "" 1 !! "sources" →
  c = c'.
Proof.
  unfold CATEGORIES. rewrite !elem_of_cons, !elem_of_nil.
  intros [->|[->|[->|[->|[->|[]]]]]] [->|[->|[->|[->|[->|[]]]]]] H;
    try reflexivity; vm_compute in H; discriminate.
Qed.

Lemma params_sources_indep c t p t' p' :
  fetchNews_params c t p !! "sources" = fetchNews_params c t' p' !! "sources".
Proof. by rewrite !params_sources. Qed.

(** X4: two calls for categories of the picker send the same request
    exactly when they have the same category, the same page and the same
    search term, an empty search term counting as "news". *)
Theorem fetchNews_same_request net n a a' :
  default "all" (arg_category a) ∈ CATEGORIES →
  default "all" (arg_category a') ∈ CATEGORIES →
  ((run net n (fetchNews a)).1 = (run net n (fetchNews a')).1 ↔
   default "all" (arg_category a) = default "all" (arg_category a') ∧
   or_else (default "" (arg_searchTerm a)) "news" =
     or_else (default "" (arg_searchTerm a')) "news" ∧
   default 1 (arg_page a) = default 1 (arg_page a')).
Proof.
  intros Hc Hc'. rewrite !fetchNews_run. cbn [fst].
  set (c := default "all" (arg_category a)) in *.
  set (c' := default "all" (arg_category a')) in *.
  set (t := default "" (arg_searchTerm a)).
  set (t' := default "" (arg_searchTerm a')).
  set (p := default 1 (arg_page a)). set (p' := default 1 (arg_page a')).
  split.
  - intros [= H]. split_and!.
    + apply CATEGORY_SOURCES_inj; [done|done|].
      rewrite (params_sources_indep c "" 1 t p).
      rewrite (params_sources_indep c' "" 1 t' p'). by rewrite H.
    + apply (f_equal (λ m : gmap string JsVal, m !! "q")) in H.
      rewrite !params_q in H. by injection H.
    + apply (f_equal (λ m : gmap string JsVal, m !! "page")) in H.
      rewrite !params_page in H. by injection H.
  - intros (-> & Ht & ->). unfold the_request, fetchNews_params.
    by rewrite Ht.
Qed.

Lemma fetchNews_same_request_witness :
  "all" ∈ CATEGORIES ∧
  (run short_net 0 (fetchNews (mkFetchArgs None (Some "") None))).1 =
  (run short_net 0
     (fetchNews (mkFetchArgs (Some "all") (Some "news") (Some 1)))).1.
Proof.
  assert ("all" ∈ CATEGORIES) as Hin by (vm_compute; left).
  split; [exact Hin|].
  apply (fetchNews_same_request short_net 0
           (mkFetchArgs None (Some "") None)
           (mkFetchArgs (Some "all") (Some "news") (Some 1)) Hin Hin).
  split_and!; reflexivity.
Defined.

(** X5: what a query asks of the network depends on the screen's state only
    through the query key: states with the same key make the same call for
    every page, so the text typed and not submitted reaches no request. *)
Theorem request_depends_only_on_key net n u u' pageParam :
  queryKey u = queryKey u' →
  run net n (queryFn u pageParam) = run net n (queryFn u' pageParam).
Proof. intros Hk. by rewrite (queryFn_key u u' pageParam Hk). Qed.

Lemma request_depends_only_on_key_witness :
  queryKey (mkUi "typed" "rain" "tech") = queryKey (mkUi "" "rain" "tech") ∧
  run short_net 0 (queryFn (mkUi "typed" "rain" "tech") (Some 3)) =
  run short_net 0 (queryFn (mkUi "" "rain" "tech") (Some 3)).
Proof.
  assert (queryKey (mkUi "typed" "rain" "tech")
          = queryKey (mkUi "" "rain" "tech")) as Hk by reflexivity.
  split; [exact Hk|].
  exact (request_depends_only_on_key short_net 0 _ _ (Some 3) Hk).
Defined.

(** ** Rows of the list *)

Lemma string_length_app s t :
  String.length (s +:+ t) = (String.length s + String.length t)%nat.
Proof.
  induction s as [|a s IH]; [done|].
  change (String a s +:+ t) with (String a (s +:+ t)). simpl. by rewrite IH.
Qed.

Lemma string_app_inj s1 s2 t1 t2 :
  String.length t1 = String.length t2 →
  s1 +:+ t1 = s2 +:+ t2 → s1 = s2 ∧ t1 = t2.
Proof.
  intros Hl. revert s2. induction s1 as [|a s1 IH]; intros [|b s2] H.
  - done.
  - change ("" +:+ t1) with t1 in H. rewrite H in Hl.
    change (String b s2 +:+ t2) with (String b (s2 +:+ t2)) in Hl.
    simpl in Hl. rewrite string_length_app in Hl. lia.
  - change ("" +:+ t2) with t2 in H. rewrite <- H in Hl.
    change (String a s1 +:+ t1) with (String a (s1 +:+ t1)) in Hl.
    simpl in Hl. rewrite string_length_app in Hl. lia.
  - change (String a (s1 +:+ t1) = String b (s2 +:+ t2)) in H.
    injection H as -> H. by destruct (IH s2 H) as [-> ->].
Qed.

Lemma keyExtractor_inj a b :
  String.length (publishedAt a) = String.length (publishedAt b) →
  keyExtractor a = keyExtractor b →
  url a = url b ∧ publishedAt a = publishedAt b.
Proof.
  intros Hl H. unfold keyExtractor in H.
  apply string_app_inj in H as [Hu Hp].
  - split; [done|]. by apply string_app_inj in Hp as [_ Hp].
  - rewrite !string_length_app. by rewrite Hl.
Qed.

(** Without timestamps of one length two different articles can get the
    same row key. *)
Example keyExtractor_collision :
  keyExtractor (mkArticle "a-b" "" "" "" "c" "" "") =
  keyExtractor (mkArticle "a" "" "" "" "b-c" "" "").
Proof. reflexivity. Qed.

(** X6: among articles whose [publishedAt] texts all have the same length
    (as timestamps of one format do), the row keys of the list are pairwise
    different exactly when the (url, publishedAt) pairs are. *)
Theorem row_keys_distinct (items : list Article) (len : nat) :
  Forall (λ a, String.length (publishedAt a) = len) items →
  (NoDup (keyExtractor <$> items) ↔
   NoDup ((λ a, (url a, publishedAt a)) <$> items)).
Proof.
  intros Hlen. rewrite Forall_forall in Hlen.
  induction items as [|x l IH]; simpl.
  - split; intros _; constructor.
  - rewrite !NoDup_cons.
    assert (keyExtractor x ∈ keyExtractor <$> l ↔
            (url x, publishedAt x) ∈ (λ a, (url a, publishedAt a)) <$> l)
      as Hin.
    { rewrite !list_elem_of_fmap. split.
      - intros (y & Hk & Hy). exists y. split; [|done].
        destruct (keyExtractor_inj x y) as [-> ->]; [|done|done].
        rewrite (Hlen x), (Hlen y); [done|by right|by left].
      - intros (y & [= Hu Hp] & Hy). exists y. split; [|done].
        unfold keyExtractor. by rewrite Hu, Hp. }
    rewrite Hin, IH; [done|].
    intros y Hy. apply Hlen. by right.
Qed.

Lemma row_keys_distinct_witness :
  Forall (λ a, String.length (publishedAt a) = 20%nat)
    [sample_article "a"; sample_article "b"] ∧
  NoDup (keyExtractor <$> [sample_article "a"; sample_article "b"]).
Proof.
  assert (Forall (λ a, String.length (publishedAt a) = 20%nat)
            [sample_article "a"; sample_article "b"]) as Hl
    by (repeat constructor).
  split; [exact Hl|].
  apply (row_keys_distinct _ 20 Hl).
  simpl. apply NoDup_cons. split; [|apply NoDup_singleton].
  rewrite list_elem_of_singleton. discriminate.
Defined.

(** X7: an article is a row of the list exactly when some fetched page has
    it among its articles, and the list has an undefined row exactly when
    some fetched page came without an [articles] array. *)
Theorem allNews_rows (d : InfiniteData) :
  (∀ a, Some a ∈ allNews (Some d) ↔
        ∃ page l, page ∈ pages d ∧ articles page = Some l ∧ a ∈ l) ∧
  (None ∈ allNews (Some d) ↔
   ∃ page, page ∈ pages d ∧ articles page = None).
Proof.
  assert (∀ x, x ∈ allNews (Some d) ↔
               ∃ page, page ∈ pages d ∧ x ∈ page_items page) as Hx.
  { intros x. simpl. rewrite list_elem_of_In, in_flat_map.
    by setoid_rewrite list_elem_of_In. }
  split.
  - intros a. rewrite Hx. split.
    + intros (page & Hp & Ha). unfold page_items in Ha.
      destruct (articles page) as [l|] eqn:Hl.
      * exists page, l. split_and!; [done|done|].
        apply list_elem_of_fmap in Ha as (b & [= ->] & Hb). done.
      * apply list_elem_of_singleton in Ha. discriminate.
    + intros (page & l & Hp & Hl & Ha). exists page. split; [done|].
      unfold page_items. rewrite Hl. by apply list_elem_of_fmap_2.
  - rewrite Hx. split.
    + intros (page & Hp & Ha). exists page. split; [done|].
      unfold page_items in Ha. destruct (articles page) as [l|]; [|done].
      apply list_elem_of_fmap in Ha as (b & Hb & _). discriminate.
    + intros (page & Hp & Hl). exists page. split; [done|].
      unfold page_items. rewrite Hl. by apply list_elem_of_singleton.
Qed.

(** X8: a row never shows an empty image address, description or source
    name: each is the article's own text when that is not empty and the
    fixed fallback otherwise; the title is shown as it is. *)
Theorem NewsItem_fallbacks (item : Article) :
  image_uri (NewsItem item) ≠ "" ∧
  description_text (NewsItem item) ≠ "" ∧
  source_text (NewsItem item) ≠ "" ∧
  title_text (NewsItem item) = title item ∧
  image_uri (NewsItem item) =
    (if decide (urlToImage item = "") then "https://placehold.co/600x400"
     else urlToImage item) ∧
  description_text (NewsItem item) =
    (if decide (description item = "") then "No description available"
     else description item) ∧
  source_text (NewsItem item) =
    (if decide (source_name item = "") then "Unknown"
     else source_name item).
Proof.
  unfold NewsItem. cbn [image_uri description_text source_text title_text].
  split_and!; try (by apply or_else_not_empty); try reflexivity;
    unfold or_else, truthy_string; by destruct (decide _).
Qed.

(** ** Properties of all cache entries *)

Section EntryInvariant.

Variable net : nat → Request → AxiosOutcome.
Variable P : list string → Query → Prop.

Hypothesis P_fetching : ∀ key q j, P key q → P key (fetching q j).
Hypothesis P_with_job : ∀ key q j, P key q → P key (with_job q j).
Hypothesis P_failed : ∀ key q e, P key q → P key (failed q e).
Hypothesis P_succeeded : ∀ key q d, P key q → P key (succeeded d).

Lemma entries_ok_set_query w key q0 q log :
  entries_ok P w → cache w !! key = Some q0 → P key q →
  entries_ok P (set_query key q log w).
Proof.
  intros Hw _ Hq key' q'. simpl. rewrite lookup_insert.
  case_decide as Hk; [|apply Hw]. subst. by intros [= <-].
Qed.

Lemma entries_ok_fetch_all w u q f c log :
  entries_ok P w → P (queryKey u) q →
  fetch_all u q f (cache w) (requests w) = (c, log) →
  entries_ok P {| ui := u; cache := c; requests := log |}.
Proof.
  intros Hw Hq. unfold fetch_all.
  destruct (start_fetch _ _ _ _ _) as [[j log']|]; intros [= <- <-].
  - intros key' q'. simpl. rewrite lookup_insert.
    case_decide as Hk; [|apply Hw]. subst. intros [= <-].
    by apply P_fetching.
  - exact Hw.
Qed.

Lemma entries_ok_observe w u c log :
  entries_ok P w → P (queryKey u) new_query →
  observe u (cache w) (requests w) = (c, log) →
  entries_ok P {| ui := u; cache := c; requests := log |}.
Proof.
  intros Hw Hn. unfold observe.
  destruct (cache w !! queryKey u) as [q|] eqn:Hq.
  - destruct (q_job q).
    + intros [= <- <-]. exact Hw.
    + apply entries_ok_fetch_all; [done|by apply Hw].
  - by apply entries_ok_fetch_all.
Qed.

Lemma entries_ok_step w e :
  P (queryKey (ui (step net w e))) new_query →
  entries_ok P w → entries_ok P (step net w e).
Proof.
  assert (∀ u, P (queryKey u) new_query →
               entries_ok P w → entries_ok P (render u w)) as Hrender.
  { intros u Hn Hw. unfold render. destruct (decide _); [exact Hw|].
    destruct (observe _ _ _) as [c log] eqn:Ho.
    by apply (entries_ok_observe w). }
  destruct e; simpl.
  - rewrite ui_render. apply Hrender.
  - rewrite ui_render. apply Hrender.
  - rewrite ui_render. apply Hrender.
  - rewrite ui_onEndReached. intros Hn Hw.
    unfold onEndReached. destruct (hook_status w); try done.
    destruct (hasNextPage w); [|done].
    assert (P (queryKey (ui w)) (observed w)) as Hobs.
    { unfold observed. destruct (cache w !! queryKey (ui w)) eqn:Hq; simpl;
        [by apply Hw|done]. }
    unfold fetchNextPage. destruct (q_data (observed w)).
    + destruct (start_fetch _ _ _ _ _) as [[j log]|]; [|done].
      intros key' q'. simpl. rewrite lookup_insert.
      case_decide as Hk; [|apply Hw]. subst. intros [= <-].
      by apply P_fetching.
    + destruct (q_job _); [done|].
      destruct (observe _ _ _) as [c log] eqn:Ho.
      by apply (entries_ok_observe w).
  - intros _ Hw. unfold settled.
    destruct (cache w !! key) as [q|] eqn:Hq; [|done].
    destruct (q_job q) as [j|]; [|done].
    pose proof (Hw _ _ Hq) as HP.
    destruct (resume net j) as [page|e|r k].
    + unfold page_done. destruct (job_forward j);
        [by eapply entries_ok_set_query; eauto|].
      case_bool_decide; [|by eapply entries_ok_set_query; eauto].
      destruct (nextPageParam _);
        [|by eapply entries_ok_set_query; eauto].
      unfold call_page. by eapply entries_ok_set_query; eauto.
    + unfold page_failed. case_bool_decide;
        [|by eapply entries_ok_set_query; eauto].
      destruct (start_fetch _ _ _ _ _) as [[j' log]|];
        by eapply entries_ok_set_query; eauto.
    + by eapply entries_ok_set_query; eauto.
  - intros _ Hw. unfold gc. destruct (cache w !! key) as [q|]; [|done].
    case_bool_decide; [|done].
    intros key' q'. simpl. rewrite lookup_delete.
    case_decide; [done|apply Hw].
Qed.

Lemma entries_ok_mount : P (queryKey initial_ui) new_query → entries_ok P mount.
Proof.
  intros Hn. unfold mount. destruct (observe _ _ _) as [c log] eqn:Ho.
  apply (entries_ok_observe {| ui := initial_ui; cache := ∅; requests := [] |});
    [|done|exact Ho].
  intros key q. simpl. by rewrite lookup_empty.
Qed.

End EntryInvariant.







(** ** The category and the request log *)

Lemma picker_values : item_value <$> picker_items = CATEGORIES.
Proof. reflexivity. Qed.

Lemma category_step net w e :
  valid_event e →
  activeCategory (ui w) ∈ CATEGORIES →
  activeCategory (ui (step net w e)) ∈ CATEGORIES.
Proof.
  intros He Hw. destruct e; simpl in *.
  - by rewrite ui_render.
  - by rewrite ui_render.
  - rewrite ui_render. simpl. by rewrite <- picker_values.
  - by rewrite ui_onEndReached.
  - by rewrite ui_settled.
  - by rewrite ui_gc.
Qed.

Lemma category_run net es :
  Forall valid_event es →
  activeCategory (ui (run_events net es)) ∈ CATEGORIES.
Proof.
  unfold run_events. induction es as [|e es IH] using rev_ind; intros Hes.
  - vm_compute. left.
  - apply Forall_app in Hes as [Hes He]. rewrite Forall_singleton in He.
    rewrite foldl_app. cbn [foldl]. apply category_step; [done|by apply IH].
Qed.

Lemma picker_keys_run net es :
  Forall valid_event es →
  entries_ok (λ key _, picker_key key) (run_events net es).
Proof.
  intros Hes.
  assert (∀ es', Forall valid_event es' →
                 picker_key (queryKey (ui (run_events net es')))) as Hk.
  { intros es' Hes'. eexists. split; [reflexivity|]. by apply category_run. }
  revert Hes. unfold run_events in *.
  induction es as [|e es IH] using rev_ind; intros Hes.
  - apply entries_ok_mount; [done|]. apply (Hk [] (Forall_nil_2 _)).
  - pose proof (Hk _ Hes) as Hlast.
    apply Forall_app in Hes as [Hes He].
    rewrite foldl_app in *. cbn [foldl] in *.
    apply entries_ok_step; try done. by apply IH.
Qed.

Section RequestLog.

Variable net : nat → Request → AxiosOutcome.

Lemma start_fetch_log u0 u fw old f log j log' :
  pages_of net u old →
  start_fetch u0 fw old f log = Some (j, log') →
  ∃ p, log' = (log ++ [the_request (activeCategory u0) (searchTerm u0) p])%list
       ∧ (1 ≤ p)%Z.
Proof.
  intros Hold. unfold start_fetch, call_page. cbv zeta. destruct fw.
  - destruct (nextPageParam old) as [p|] eqn:Hp; [|done].
    intros [= _ <-]. exists p. split; [done|].
    destruct (nextPageParam_pages_of net _ _ _ Hold Hp) as [-> _]. lia.
  - intros [= _ <-]. rewrite (head_pageParams net u old Hold). by exists 1.
Qed.

Lemma entry_pages_of w key q :
  cache_ok net w → cache w !! key = Some q →
  ∃ u, key = queryKey u ∧ query_ok net u q ∧
       pages_of net u (default no_data (q_data q)).
Proof.
  intros Hw Hq. destruct (Hw _ _ Hq) as (u & Hk & Hok).
  exists u. split_and!; [done|done|].
  destruct (q_data q) as [d|] eqn:Hd; [|apply pages_of_no_data].
  by apply Hok.
Qed.

Lemma fetch_all_log w u u0 q f c log :
  pages_of net u0 (default no_data (q_data q)) →
  fetch_all u q f (cache w) (requests w) = (c, log) →
  ∃ new, log = (requests w ++ new)%list ∧
         Forall (asked_by (cache w) u) new.
Proof.
  intros Hp. unfold fetch_all.
  destruct (start_fetch _ _ _ _ _) as [[j log']|] eqn:Hs; intros [= <- <-].
  - destruct (start_fetch_log _ _ _ _ _ _ _ _ Hp Hs) as (p & -> & Hp1).
    eexists. split; [reflexivity|]. apply Forall_singleton.
    exists u, p. split_and!; [done|done|by right].
  - exists []. by rewrite app_nil_r.
Qed.

Lemma observe_log w u c log :
  cache_ok net w →
  observe u (cache w) (requests w) = (c, log) →
  ∃ new, log = (requests w ++ new)%list ∧
         Forall (asked_by (cache w) u) new.
Proof.
  intros Hw. unfold observe.
  destruct (cache w !! queryKey u) as [q|] eqn:Hq.
  - destruct (entry_pages_of w _ q Hw Hq) as (u0 & _ & _ & Hp).
    destruct (q_job q).
    + intros [= <- <-]. exists []. by rewrite app_nil_r.
    + by apply (fetch_all_log w u u0).
  - apply (fetch_all_log w u u). apply pages_of_no_data.
Qed.

Lemma no_new_requests (log : list Request) c u :
  ∃ new, log = (log ++ new)%list ∧ Forall (asked_by c u) new.
Proof. exists []. by rewrite app_nil_r. Qed.

Lemma requests_step w e :
  cache_ok net w →
  ∃ new, requests (step net w e) = (requests w ++ new)%list ∧
         Forall (asked_by (cache w) (ui (step net w e))) new.
Proof.
  intros Hw.
  assert (∀ u, ∃ new, requests (render u w) = (requests w ++ new)%list ∧
                      Forall (asked_by (cache w) u) new) as Hrender.
  { intros u. unfold render. destruct (decide _); [apply no_new_requests|].
    destruct (observe _ _ _) as [c log] eqn:Ho.
    exact (observe_log w _ _ _ Hw Ho). }
  destruct e; simpl.
  - rewrite ui_render. apply Hrender.
  - rewrite ui_render. apply Hrender.
  - rewrite ui_render. apply Hrender.
  - rewrite ui_onEndReached. unfold onEndReached.
    destruct (hook_status w); try apply no_new_requests.
    destruct (hasNextPage w); [|apply no_new_requests].
    pose proof (observed_ok net w Hw) as (Hd & _ & _).
    unfold fetchNextPage.
    destruct (q_data (observed w)) as [d|] eqn:Hdq.
    + destruct (start_fetch _ _ _ _ _) as [[j log]|] eqn:Hs;
        [|apply no_new_requests].
      destruct (Hd d eq_refl) as [Hp _].
      destruct (start_fetch_log _ _ _ _ _ _ _ _ Hp Hs) as (p & -> & Hp1).
      simpl. eexists. split; [reflexivity|]. apply Forall_singleton.
      exists (ui w), p. split_and!; [done|done|by right].
    + destruct (q_job _); [apply no_new_requests|].
      destruct (observe _ _ _) as [c log] eqn:Ho.
      exact (observe_log w _ _ _ Hw Ho).
  - rewrite ui_settled. unfold settled.
    destruct (cache w !! key) as [q|] eqn:Hq; [|apply no_new_requests].
    destruct (entry_pages_of w _ q Hw Hq) as (u & -> & Hok & Hold).
    destruct (q_job q) as [j|] eqn:Hj; [|apply no_new_requests].
    assert (job_ok net u q j) as Hjob by by apply Hok.
    pose proof Hjob as (Hk & Hc & Ho & Ha & Hp & Hf).
    assert (is_Some (cache w !! queryKey (job_closure j))) as Hin
      by (rewrite Hk, Hq; eauto).
    destruct (resume net j) as [page|e|r k] eqn:Hr.
    + unfold page_done. destruct (job_forward j); [apply no_new_requests|].
      case_bool_decide; [|apply no_new_requests].
      destruct (nextPageParam _) as [p|] eqn:Hn; [|apply no_new_requests].
      unfold call_page, set_query. cbv beta iota zeta. cbn [requests].
      rewrite first_request_queryFn. eexists. split; [reflexivity|]. apply Forall_singleton.
      exists (job_closure j), p. split_and!; [done| |by left].
      rewrite (resume_answer net u q j Hjob) in Hr.
      assert (pages_of net u (addToEnd (job_acc j) page (job_param j)))
        as Hacc.
      { rewrite Hp. eapply pages_of_addToEnd; [done|]. by rewrite <- Hp. }
      destruct (nextPageParam_pages_of net _ _ _ Hacc Hn) as [-> _]. lia.
    + unfold page_failed. case_bool_decide; [|apply no_new_requests].
      destruct (start_fetch _ _ _ _ _) as [[j' log]|] eqn:Hs;
        [|apply no_new_requests].
      rewrite Ho in Hs.
      destruct (start_fetch_log _ _ _ _ _ _ _ _ Hold Hs) as (p & -> & Hp1).
      simpl. eexists. split; [reflexivity|]. apply Forall_singleton.
      exists (job_closure j), p. split_and!; [done|done|by left].
    + rewrite (resume_answer net u q j Hjob) in Hr.
      by apply answer_not_get in Hr.
  - rewrite ui_gc. unfold gc.
    destruct (cache w !! key); [|apply no_new_requests].
    case_bool_decide; apply no_new_requests.
Qed.

End RequestLog.

Lemma picker_request_asked c u r :
  (∀ key, is_Some (c !! key) → picker_key key) →
  activeCategory u ∈ CATEGORIES →
  asked_by c u r → picker_request r.
Proof.
  intros Hc Hu (u0 & p & -> & Hp & Hor).
  exists (activeCategory u0), (searchTerm u0), p. split_and!; [done| |done].
  destruct Hor as [Hin|Hk].
  - destruct (Hc _ Hin) as (u1 & Hk & Hcat).
    unfold queryKey in Hk. by injection Hk as -> _.
  - unfold queryKey in Hk. by injection Hk as -> _.
Qed.

(** X9: as long as the picker reports values of its own items, the
    selected category is one of the picker's values at every moment. *)
Theorem selected_category_is_picker_value net es :
  Forall valid_event es →
  activeCategory (ui (run_events net es)) ∈ item_value <$> picker_items.
Proof. intros Hes. rewrite picker_values. by apply category_run. Qed.

Lemma selected_category_is_picker_value_witness :
  Forall valid_event [OnValueChange "sports"; OnChangeText "cup"; OnSubmit] ∧
  activeCategory
    (ui (run_events short_net
           [OnValueChange "sports"; OnChangeText "cup"; OnSubmit]))
  ∈ item_value <$> picker_items.
Proof.
  assert (Forall valid_event
            [OnValueChange "sports"; OnChangeText "cup"; OnSubmit]) as Hes.
  { repeat constructor. }
  split; [exact Hes|].
  exact (selected_category_is_picker_value short_net _ Hes).
Defined.

(** X10: whatever the user and the network do, every request the screen
    ever sends is the request [fetchNews] builds for some page number from 1
    on, some search term and a category of the picker. *)
Theorem every_request_is_a_picker_request net es :
  Forall valid_event es →
  Forall picker_request (requests (run_events net es)).
Proof.
  intros Hes.
  assert (∀ es', Forall valid_event es' →
     Forall picker_request (requests (run_events net es'))) as H;
    [|by apply H].
  clear es Hes. intros es.
  induction es as [|e es IH] using rev_ind; intros Hes.
  - assert (requests (run_events net []) = [the_request "all" "" 1]) as ->
      by (vm_compute; reflexivity).
    apply Forall_singleton.
    exists "all", "", 1. split_and!; [done|vm_compute; left|done].
  - pose proof (category_run net _ Hes) as Hcat.
    apply Forall_app in Hes as [Hes He].
    pose proof (picker_keys_run net es Hes) as Hkeys.
    specialize (IH Hes). unfold run_events in *. rewrite foldl_app in *.
    cbn [foldl] in *.
    destruct (requests_step net (foldl (step net) mount es) e
                (cache_ok_run net es)) as (new & -> & Hnew).
    apply Forall_app. split; [exact IH|].
    eapply Forall_impl; [exact Hnew|]. intros r Hr.
    eapply picker_request_asked; [|exact Hcat|exact Hr].
    intros key [q Hq]. by apply (Hkeys key q).
Qed.

Lemma every_request_is_a_picker_request_witness :
  Forall valid_event
    [OnValueChange "sports"; Settled ["news"; "sports"; ""]; OnEndReached] ∧
  Forall picker_request
    (requests (run_events short_net
       [OnValueChange "sports"; Settled ["news"; "sports"; ""];
        OnEndReached])) ∧
  length (requests (run_events short_net
       [OnValueChange "sports"; Settled ["news"; "sports"; ""];
        OnEndReached])) = 3%nat.
Proof.
  assert (Forall valid_event
    [OnValueChange "sports"; Settled ["news"; "sports"; ""]; OnEndReached])
    as Hes.
  { repeat constructor. }
  split; [exact Hes|]. split.
  - exact (every_request_is_a_picker_request short_net _ Hes).
  - vm_compute. reflexivity.
Defined.

(** ** What is on screen *)






(** A body without [articles] is reachable and gives the list one
    undefined row, which has neither key nor rendering. *)
Example undefined_row_on_screen :
  screen (run_events bare_net first_page_loaded) =
    Some (NewsList [None] false) ∧
  row None = None.
Proof. split; [vm_compute|]; reflexivity. Qed.

Lemma render_same w : render (ui w) w = w.
Proof. destruct w. unfold render. simpl. by rewrite decide_True. Qed.

(** X12: submitting twice is submitting once, and choosing the category
    that is already selected changes nothing: no request, no change of the
    cache. *)
Theorem repeated_submit_is_noop net w :
  step net (step net w OnSubmit) OnSubmit = step net w OnSubmit ∧
  step net w (OnValueChange (activeCategory (ui w))) = w.
Proof.
  split.
  - simpl.
    assert (handleSearch (ui (render (handleSearch (ui w)) w))
            = ui (render (handleSearch (ui w)) w)) as ->
      by (by rewrite ui_render).
    apply render_same.
  - simpl.
    assert (setActiveCategory (activeCategory (ui w)) (ui w) = ui w) as ->
      by (by destruct (ui w)).
    apply render_same.
Qed.

Lemma render_new_key u w :
  cache w !! queryKey u = None →
  queryKey u ≠ queryKey (ui w) →
  render u w =
  {| ui := u;
     cache :=
       <[queryKey u :=
           {| q_data := None; q_status := StatusPending; q_error := None;
              q_job :=
                Some {| job_closure := u; job_forward := false;
                        job_old := no_data; job_acc := no_data;
                        job_param := 1; job_serial := length (requests w);
                        job_call := queryFn u (Some 1);
                        job_failureCount := 0 |} |}]> (cache w);
     requests :=
       (requests w ++ [the_request (activeCategory u) (searchTerm u) 1])%list
  |}.
Proof.
  intros Hn Hk. unfold render. rewrite decide_False by done.
  unfold observe, fetch_all, start_fetch, call_page. rewrite Hn.
  cbv beta iota zeta. by rewrite first_request_queryFn.
Qed.

Lemma render_new_key_screen u w :
  cache w !! queryKey u = None →
  queryKey u ≠ queryKey (ui w) →
  requests (render u w) =
    (requests w ++ [the_request (activeCategory u) (searchTerm u) 1])%list ∧
  screen (render u w) = Some Loader ∧
  hook_data (render u w) = None ∧
  ∀ key, key ≠ queryKey u → cache (render u w) !! key = cache w !! key.
Proof.
  intros Hn Hk. rewrite (render_new_key u w Hn Hk).
  unfold screen, hook_status, hook_data, observed. simpl.
  rewrite lookup_insert_eq. simpl. split_and!; try done.
  intros key Hkey. by rewrite lookup_insert_ne.
Qed.

(** X13: a search or a category that has no cache entry yet starts at page
    1.  Submitting sends exactly one request, for page 1 of the selected
    category and the text of the input; picking a category sends exactly
    one request, for page 1 of that category and the search term submitted
    last (not the text typed since).  Either way the large indicator is
    shown, there is no data, and the entries of other keys stay as they
    are. *)
Theorem new_query_starts_at_page_one net w :
  (cache w !! queryKey (handleSearch (ui w)) = None →
   queryKey (handleSearch (ui w)) ≠ queryKey (ui w) →
   requests (step net w OnSubmit) =
     (requests w ++
      [the_request (activeCategory (ui w)) (searchInput (ui w)) 1])%list ∧
   screen (step net w OnSubmit) = Some Loader ∧
   hook_data (step net w OnSubmit) = None ∧
   ∀ key, key ≠ queryKey (handleSearch (ui w)) →
          cache (step net w OnSubmit) !! key = cache w !! key) ∧
  (∀ itemValue,
     cache w !! queryKey (setActiveCategory itemValue (ui w)) = None →
     queryKey (setActiveCategory itemValue (ui w)) ≠ queryKey (ui w) →
     requests (step net w (OnValueChange itemValue)) =
       (requests w ++ [the_request itemValue (searchTerm (ui w)) 1])%list ∧
     screen (step net w (OnValueChange itemValue)) = Some Loader ∧
     hook_data (step net w (OnValueChange itemValue)) = None ∧
     ∀ key, key ≠ queryKey (setActiveCategory itemValue (ui w)) →
            cache (step net w (OnValueChange itemValue)) !! key
            = cache w !! key).
Proof.
  split.
  - intros Hn Hk. exact (render_new_key_screen _ w Hn Hk).
  - intros c Hn Hk. exact (render_new_key_screen _ w Hn Hk).
Qed.

Lemma new_query_starts_at_page_one_witness :
  cache (run_events short_net first_page_loaded)
    !! queryKey (setActiveCategory "tech"
                   (ui (run_events short_net first_page_loaded))) = None ∧
  requests (step short_net (run_events short_net first_page_loaded)
              (OnValueChange "tech")) =
    (requests (run_events short_net first_page_loaded) ++
     [the_request "tech" "" 1])%list ∧
  screen (step short_net (run_events short_net first_page_loaded)
            (OnValueChange "tech")) = Some Loader.
Proof.
  assert (cache (run_events short_net first_page_loaded)
    !! queryKey (setActiveCategory "tech"
                   (ui (run_events short_net first_page_loaded))) = None)
    as Hn by (vm_compute; reflexivity).
  destruct (new_query_starts_at_page_one short_net
              (run_events short_net first_page_loaded)) as [_ Hpick].
  destruct (Hpick "tech" Hn) as (Hr & Hs & _).
  - vm_compute. discriminate.
  - split; [exact Hn|]. split; [exact Hr|exact Hs].
Defined.

(** ** Loading more *)

(** X14: when the end of the list is reached while it is shown, the rows
    stay as they are and the footer shows the small indicator. *)
Theorem loading_more_keeps_rows net es d :
  hook_data (run_events net es) = Some d →
  hook_status (run_events net es) = StatusSuccess →
  hook_data (step net (run_events net es) OnEndReached) = Some d ∧
  screen (step net (run_events net es) OnEndReached) =
    Some (NewsList (allNews (Some d)) true).
Proof.
  intros Hd Hs. destruct (hasNextPage_loaded net es d Hd) as [Hn Hh].
  simpl. unfold onEndReached. rewrite Hs, Hh.
  unfold fetchNextPage. cbv zeta. unfold hook_data in Hd. rewrite Hd.
  unfold start_fetch, call_page. rewrite Hn. cbv beta iota zeta.
  unfold fetching. rewrite Hd.
  unfold screen, hook_status, hook_data, isFetchingNextPage, observed in *.
  cbn [ui cache]. rewrite lookup_insert_eq.
  cbn [default q_data q_status q_job job_forward]. by rewrite Hs.
Qed.

Lemma loading_more_keeps_rows_witness :
  hook_data (run_events short_net first_page_loaded)
    = Some {| pages := [short_page 2]; pageParams := [1] |} ∧
  hook_status (run_events short_net first_page_loaded) = StatusSuccess ∧
  screen (step short_net (run_events short_net first_page_loaded)
            OnEndReached) =
    Some (NewsList (page_items (short_page 2)) true).
Proof.
  assert (hook_data (run_events short_net first_page_loaded)
          = Some {| pages := [short_page 2]; pageParams := [1] |}) as Hd
    by (vm_compute; reflexivity).
  assert (hook_status (run_events short_net first_page_loaded)
          = StatusSuccess) as Hs by (vm_compute; reflexivity).
  split; [exact Hd|]. split; [exact Hs|].
  exact (proj2 (loading_more_keeps_rows short_net first_page_loaded _ Hd Hs)).
Defined.

(** X15: when the page asked for by a load-more arrives, it becomes the
    last page of the data: the rows shown before stay where they are, the
    items of the new page follow them, and the footer indicator goes. *)
Theorem arrived_page_is_appended net es d j page :
  hook_data (run_events net es) = Some d →
  q_job (observed (run_events net es)) = Some j →
  job_forward j = true →
  resume net j = Return page →
  hook_data (step net (run_events net es)
               (Settled (queryKey (ui (run_events net es))))) =
    Some (addToEnd d page (Z.of_nat (length (pages d)) + 1)) ∧
  screen (step net (run_events net es)
            (Settled (queryKey (ui (run_events net es))))) =
    Some (NewsList (allNews (Some d) ++ page_items page)%list false).
Proof.
  set (w := run_events net es). intros Hd Hj Hf Hr.
  pose proof (observed_ok net w (cache_ok_run net es)) as (_ & _ & Hjob).
  destruct (Hjob j Hj) as (_ & _ & Hold & _ & Hparam & Hacc).
  specialize (Hacc Hf). unfold hook_data in Hd. rewrite Hd in Hold.
  simpl in Hold. rewrite Hacc, Hold in Hparam.
  unfold observed in Hd, Hj.
  destruct (cache w !! queryKey (ui w)) as [q|] eqn:Hq; [|done].
  simpl in Hd, Hj.
  assert (step net w (Settled (queryKey (ui w))) =
          set_query (queryKey (ui w))
            (succeeded (addToEnd d page (Z.of_nat (length (pages d)) + 1)))
            (requests w) w) as ->.
  { simpl. unfold settled. rewrite Hq, Hj, Hr. unfold page_done.
    by rewrite Hf, Hacc, Hold, Hparam. }
  unfold screen, hook_status, hook_data, isFetchingNextPage, observed.
  cbn [ui cache set_query]. rewrite lookup_insert_eq.
  cbn [default succeeded q_data q_status q_job]. split; [done|].
  do 2 f_equal. simpl. rewrite flat_map_app. simpl. by rewrite app_nil_r.
Qed.

Lemma arrived_page_is_appended_witness :
  hook_data (run_events short_net loading_more) = Some one_page ∧
  q_job (observed (run_events short_net loading_more))
    = Some (page_two_job 1 0) ∧
  resume short_net (page_two_job 1 0) = Return (short_page 3) ∧
  screen (step short_net (run_events short_net loading_more)
            (Settled (queryKey (ui (run_events short_net loading_more))))) =
    Some (NewsList (page_items (short_page 2) ++ page_items (short_page 3))%list
            false).
Proof.
  assert (hook_data (run_events short_net loading_more) = Some one_page)
    as Hd by (vm_compute; reflexivity).
  assert (q_job (observed (run_events short_net loading_more))
          = Some (page_two_job 1 0)) as Hj by (vm_compute; reflexivity).
  assert (resume short_net (page_two_job 1 0) = Return (short_page 3)) as Hr
    by (vm_compute; reflexivity).
  split; [exact Hd|]. split; [exact Hj|]. split; [exact Hr|].
  exact (proj2 (arrived_page_is_appended short_net loading_more _ _ _
                  Hd Hj eq_refl Hr)).
Defined.

(** X16: when the last attempt of a fetch for the key on screen fails, the
    query keeps the data it had and sends nothing more, but the screen
    shows the error text with the failure's message, also where rows were
    shown before. *)
Theorem failed_fetch_shows_error net w q j e :
  cache w !! queryKey (ui w) = Some q →
  q_job q = Some j →
  resume net j = Throw e →
  (3 ≤ job_failureCount j)%nat →
  hook_data (step net w (Settled (queryKey (ui w)))) = q_data q ∧
  requests (step net w (Settled (queryKey (ui w)))) = requests w ∧
  screen (step net w (Settled (queryKey (ui w)))) =
    Some (ErrorText ("Error: " +:+ error_message e)).
Proof.
  intros Hq Hj Hr Hf.
  assert (step net w (Settled (queryKey (ui w))) =
          set_query (queryKey (ui w)) (failed q e) (requests w) w) as ->.
  { simpl. unfold settled. rewrite Hq, Hj, Hr. unfold page_failed.
    rewrite bool_decide_eq_false_2; [done|]. intros [_ Hlt]. lia. }
  unfold screen, hook_status, hook_data, observed.
  cbn [ui cache set_query requests]. rewrite lookup_insert_eq. done.
Qed.

Lemma failed_fetch_shows_error_witness :
  cache (run_events failing_net last_retry_in_flight)
    !! queryKey (ui (run_events failing_net last_retry_in_flight))
    = Some {| q_data := Some one_page; q_status := StatusSuccess;
              q_error := None; q_job := Some (page_two_job 4 3) |} ∧
  resume failing_net (page_two_job 4 3)
    = Throw (AxiosFailure (NetworkFailure "Network Error")) ∧
  hook_data (step failing_net (run_events failing_net last_retry_in_flight)
               (Settled (queryKey
                           (ui (run_events failing_net
                                  last_retry_in_flight)))))
    = Some one_page ∧
  screen (step failing_net (run_events failing_net last_retry_in_flight)
            (Settled (queryKey
                        (ui (run_events failing_net last_retry_in_flight)))))
    = Some (ErrorText "Error: Network Error").
Proof.
  assert (cache (run_events failing_net last_retry_in_flight)
    !! queryKey (ui (run_events failing_net last_retry_in_flight))
    = Some {| q_data := Some one_page; q_status := StatusSuccess;
              q_error := None; q_job := Some (page_two_job 4 3) |}) as Hq
    by (vm_compute; reflexivity).
  assert (resume failing_net (page_two_job 4 3)
    = Throw (AxiosFailure (NetworkFailure "Network Error"))) as Hr
    by (vm_compute; reflexivity).
  destruct (failed_fetch_shows_error failing_net
              (run_events failing_net last_retry_in_flight) _
              (page_two_job 4 3) _ Hq eq_refl Hr) as (Hd & _ & Hs).
  - simpl. lia.
  - split; [exact Hq|]. split; [exact Hr|]. split; [exact Hd|exact Hs].
Defined.

(** ** Going back to a query *)

(** X17: picking a category whose query (with the submitted search term)
    has loaded data and is not being fetched shows its rows at once, and
    asks for its pages again starting with page 1. *)
Theorem cached_query_is_shown_at_once net es itemValue q d :
  cache (run_events net es)
    !! queryKey (setActiveCategory itemValue (ui (run_events net es)))
    = Some q →
  q_data q = Some d →
  q_status q = StatusSuccess →
  q_job q = None →
  queryKey (setActiveCategory itemValue (ui (run_events net es)))
    ≠ queryKey (ui (run_events net es)) →
  hook_data (step net (run_events net es) (OnValueChange itemValue)) = Some d ∧
  screen (step net (run_events net es) (OnValueChange itemValue)) =
    Some (NewsList (allNews (Some d)) false) ∧
  requests (step net (run_events net es) (OnValueChange itemValue)) =
    (requests (run_events net es) ++
     [the_request itemValue (searchTerm (ui (run_events net es))) 1])%list.
Proof.
  set (w := run_events net es). set (u := setActiveCategory itemValue (ui w)).
  intros Hq Hd Hs Hj Hk.
  destruct (entry_pages_of net w _ q (cache_ok_run net es) Hq)
    as (u0 & _ & _ & Hp).
  rewrite Hd in Hp. simpl in Hp.
  assert (step net w (OnValueChange itemValue) =
          {| ui := u;
             cache :=
               <[queryKey u :=
                   {| q_data := Some d; q_status := StatusSuccess;
                      q_error := q_error q;
                      q_job :=
                        Some {| job_closure := u; job_forward := false;
                                job_old := d; job_acc := no_data;
                                job_param := 1;
                                job_serial := length (requests w);
                                job_call := queryFn u (Some 1);
                                job_failureCount := 0 |} |}]> (cache w);
             requests :=
               (requests w ++
                [the_request itemValue (searchTerm (ui w)) 1])%list |})
    as ->.
  { simpl. fold u. unfold render. rewrite decide_False by done.
    unfold observe. rewrite Hq, Hj. unfold fetch_all, start_fetch, call_page.
    rewrite Hd. change (default no_data (Some d)) with d. cbv zeta.
    rewrite (head_pageParams net u0 d Hp).
    cbv beta iota. unfold fetching. rewrite Hd, Hs.
    by rewrite first_request_queryFn. }
  unfold screen, hook_status, hook_data, isFetchingNextPage, observed.
  cbn [ui cache requests]. rewrite lookup_insert_eq. done.
Qed.

Lemma cached_query_is_shown_at_once_witness :
  cache (run_events short_net moved_to_tech)
    !! queryKey (setActiveCategory "all"
                   (ui (run_events short_net moved_to_tech)))
    = Some (succeeded one_page) ∧
  screen (run_events short_net moved_to_tech) = Some Loader ∧
  screen (step short_net (run_events short_net moved_to_tech)
            (OnValueChange "all")) =
    Some (NewsList (page_items (short_page 2)) false) ∧
  length (requests (step short_net (run_events short_net moved_to_tech)
                      (OnValueChange "all"))) = 3%nat.
Proof.
  assert (cache (run_events short_net moved_to_tech)
    !! queryKey (setActiveCategory "all"
                   (ui (run_events short_net moved_to_tech)))
    = Some (succeeded one_page)) as Hq by (vm_compute; reflexivity).
  destruct (cached_query_is_shown_at_once short_net moved_to_tech "all"
              _ one_page Hq eq_refl eq_refl eq_refl) as (_ & Hs & Hr).
  - vm_compute. discriminate.
  - split; [exact Hq|]. split; [vm_compute; reflexivity|].
    split; [exact Hs|]. rewrite Hr. vm_compute. reflexivity.
Defined.

(** The labels of the picker. *)
Example picker_labels :
  item_label <$> picker_items =
  ["All"; "Politics"; "Tech"; "Sports"; "Business"].
Proof. reflexivity. Qed.
